(* ===================================================================== *)
(* UX Beauty Benchmark agent (app.py): a shallow embedding of the scoring *)
(* pipeline and of the benchmark table, with the properties of its spec.  *)
(* ===================================================================== *)
(* Conventions of the embedding.
   - A Python [str] is a [string]; one character stands for one code point
     below 256, so the character classes of the [re] module are the ones
     Python uses on that range.
   - A Python [int] is a [Z].  The floats the program computes are halves
     of small integers, which binary floating point holds exactly, so a
     score before rounding is a rational [Q].
   - A call that may raise returns a [result]; [try]/[except] is a match
     on it.
   - Dictionaries that are built by side effect live in a heap of objects
     addressed by location, so that aliasing is visible. *)

From Stdlib Require Import ZArith QArith Qround Qabs Lia Lqa Ascii String.
From stdpp Require Import gmap strings list fin_maps sorting.

Set Warnings "-register-all,-abstract-large-number,-clear-no-such-hyp".

Local Open Scope string_scope.
Local Open Scope Z_scope.

(* --------------------------------------------------------------------- *)
(* Characters and strings                                                 *)
(* --------------------------------------------------------------------- *)

Definition code (c : ascii) : N := N_of_ascii c.

Definition in_range (lo hi : N) (c : ascii) : bool :=
  ((lo <=? code c) && (code c <=? hi))%N.

(* [0-9], which is all of \d below code point 256 *)
Definition is_digit (c : ascii) : bool := in_range 48 57 c.

(* [0-9a-fA-F] *)
Definition is_hex (c : ascii) : bool :=
  is_digit c || in_range 97 102 c || in_range 65 70 c.

(* \s on a str pattern, below code point 256: tab, LF, VT, FF, CR, the four
   separators 0x1c..0x1f, space, NEL (0x85) and no-break space (0xa0) *)
Definition is_space (c : ascii) : bool :=
  in_range 9 13 c || in_range 28 31 c
  || (code c =? 32)%N || (code c =? 133)%N || (code c =? 160)%N.

(* s[:n] for a natural n *)
Fixpoint take_str (n : N) (s : string) : string :=
  match s with
  | String c s' =>
      if (n =? 0)%N then EmptyString else String c (take_str (N.pred n) s')
  | EmptyString => EmptyString
  end.

Fixpoint drop_while (p : ascii -> bool) (s : string) : string :=
  match s with
  | String c s' => if p c then drop_while p s' else s
  | EmptyString => EmptyString
  end.

(* number of leading characters satisfying p, at most [cap] of them *)
Fixpoint count_prefix (p : ascii -> bool) (cap : nat) (s : string) : nat :=
  match cap, s with
  | S cap', String c s' => if p c then S (count_prefix p cap' s') else O
  | _, _ => O
  end.

(* the rest of s behind the literal prefix p, when s starts with p *)
Fixpoint strip_prefix (p s : string) : option string :=
  match p, s with
  | EmptyString, _ => Some s
  | String a p', String b s' =>
      if Ascii.eqb a b then strip_prefix p' s' else None
  | String _ _, EmptyString => None
  end.

(* Python's [needle in s] *)
Fixpoint contains (needle s : string) : bool :=
  match strip_prefix needle s with
  | Some _ => true
  | None =>
      match s with
      | String _ s' => contains needle s'
      | EmptyString => false
      end
  end.

(* Python's [sep.join(parts)] *)
Fixpoint join (sep : string) (parts : list string) : string :=
  match parts with
  | [] => EmptyString
  | [p] => p
  | p :: rest => p ++ sep ++ join sep rest
  end.

(* --------------------------------------------------------------------- *)
(* The two regular expressions of count_colors                            *)
(* --------------------------------------------------------------------- *)

(* #[0-9a-fA-F]{3,8} anchored at the start of s: the length of the match.
   The quantifier is greedy and nothing follows it, so the match takes as
   many hex digits as there are, up to 8. *)
Definition match_hex (s : string) : option nat :=
  match s with
  | String "#" s' =>
      let k := count_prefix is_hex 8 s' in
      if (3 <=? k)%nat then Some (S k) else None
  | _ => None
  end.

(* \d+ : at least one digit, then all the digits that follow *)
Definition digits1 (s : string) : option string :=
  match s with
  | String c s' => if is_digit c then Some (drop_while is_digit s') else None
  | EmptyString => None
  end.

(* rgb\(\s*\d+,\s*\d+,\s*\d+\s*\) anchored at the start of s: what is left
   of s behind the match.  Each greedy repetition is followed by characters
   outside its class, so no backtracking can change the outcome. *)
Definition match_rgb_rest (s : string) : option string :=
  s1 ← strip_prefix "rgb(" s;
  s2 ← digits1 (drop_while is_space s1);
  s3 ← strip_prefix "," s2;
  s4 ← digits1 (drop_while is_space s3);
  s5 ← strip_prefix "," s4;
  s6 ← digits1 (drop_while is_space s5);
  strip_prefix ")" (drop_while is_space s6).

Definition match_rgb (s : string) : option nat :=
  rest ← match_rgb_rest s;
  Some (String.length s - String.length rest)%nat.

(* re.findall for a pattern that never matches the empty string: scan from
   the left, report each match and resume behind it.  [skip] counts the
   characters of the last match that are still to be passed over. *)
Fixpoint findall_from (m : string -> option nat) (skip : nat) (s : string)
  : list string :=
  match s with
  | EmptyString => []
  | String _ s' =>
      match skip with
      | S k => findall_from m k s'
      | O =>
          match m s with
          | Some n => take_str (N.of_nat n) s :: findall_from m (Nat.pred n) s'
          | None => findall_from m O s'
          end
      end
  end.

Definition findall (m : string -> option nat) (s : string) : list string :=
  findall_from m O s.

Definition hex_colors (css_text : string) : list string :=
  findall match_hex css_text.

Definition rgb_colors (css_text : string) : list string :=
  findall match_rgb css_text.

(* the tokens before deduplication: hex_colors + rgb_colors *)
Definition color_tokens (css_text : string) : list string :=
  hex_colors css_text ++ rgb_colors css_text.

(* def count_colors(css_text): len(set(hex_colors + rgb_colors)) *)
Definition count_colors (css_text : string) : Z :=
  Z.of_nat (size (list_to_set (color_tokens css_text) : gset string)).

(* def cohesion_from_colors(color_count) *)
Definition cohesion_from_colors (color_count : Z) : Z :=
  if color_count <=? 6 then 10
  else if color_count <=? 12 then 8
  else if color_count <=? 24 then 6
  else if color_count <=? 48 then 4
  else 2.

(* --------------------------------------------------------------------- *)
(* round and clamp_score                                                  *)
(* --------------------------------------------------------------------- *)

(* Python's round(x) with one argument: the nearest integer, a tie going
   to the even neighbour. *)
Definition py_round (x : Q) : Z :=
  let f := Qfloor x in
  match Qcompare (x - inject_Z f) (1 # 2) with
  | Lt => f
  | Gt => f + 1
  | Eq => if Z.even f then f else f + 1
  end.

(* the fractional part of x *)
Definition frac (x : Q) : Q := (x - inject_Z (Qfloor x))%Q.

(* def clamp_score(x, lo=1, hi=10): return max(lo, min(hi, round(x))) *)
Definition clamp_score (x : Q) (lo hi : Z) : Z :=
  Z.max lo (Z.min hi (py_round x)).

(* --------------------------------------------------------------------- *)
(* Calls that may raise                                                   *)
(* --------------------------------------------------------------------- *)

Inductive result (A : Type) : Type :=
  | Ok (a : A)
  | Raise (e : string).
Arguments Ok {A} a.
Arguments Raise {A} e.

#[global] Instance result_eq_dec {A : Type} `{EqDecision A} :
  EqDecision (result A).
Proof. solve_decision. Defined.

#[global] Instance result_ret : MRet result := fun A a => Ok a.
#[global] Instance result_bind : MBind result := fun A B f m =>
  match m with
  | Ok a => f a
  | Raise e => Raise e
  end.

(* --------------------------------------------------------------------- *)
(* The parsed document, as BeautifulSoup hands it over                    *)
(* --------------------------------------------------------------------- *)

(* An attribute value is one string, or a list of tokens for the
   attributes the tree builder splits on whitespace (rel, class, ...). *)
Inductive attr_value : Type :=
  | AttrStr (s : string)
  | AttrList (l : list string).

#[global] Instance attr_value_eq_dec : EqDecision attr_value.
Proof. solve_decision. Defined.

Inductive node : Type :=
  | Tag (name : string) (attrs : gmap string attr_value) (children : list node)
  | Text (s : string).

Record tag : Type := MkTag {
  tag_name : string;
  tag_attrs : gmap string attr_value
}.

#[global] Instance tag_eq_dec : EqDecision tag.
Proof. solve_decision. Defined.

(* every Tag below a node, in document order *)
Fixpoint tags_of (n : node) : list tag :=
  match n with
  | Tag name attrs children => MkTag name attrs :: flat_map tags_of children
  | Text _ => []
  end.

(* the BeautifulSoup object is the root; it holds the top-level nodes *)
Definition soup : Type := list node.

Definition descendants (doc : soup) : list tag := flat_map tags_of doc.

(* a filter that is a function of the string: it is tried on every token of
   a list value, then on the tokens joined by blanks; a missing attribute
   is handed to the function as None *)
Definition matches_fun (f : option string -> bool) (v : option attr_value)
  : bool :=
  match v with
  | None => f None
  | Some (AttrStr s) => f (Some s)
  | Some (AttrList l) =>
      existsb (fun item => f (Some item)) l || f (Some (join " " l))
  end.

(* a filter that is a string: exact match, by token or on the joined value *)
Definition matches_str (want : string) (v : option attr_value) : bool :=
  match v with
  | None => false
  | Some (AttrStr s) => String.eqb s want
  | Some (AttrList l) =>
      existsb (fun item => String.eqb item want) l
      || String.eqb (join " " l) want
  end.

(* a filter that is True: the attribute is there *)
Definition matches_true (v : option attr_value) : bool :=
  match v with
  | None => false
  | Some _ => true
  end.

(* lambda v: v and "stylesheet" in v *)
Definition rel_is_stylesheet (v : option string) : bool :=
  match v with
  | None => false
  | Some s => negb (String.eqb s "") && contains "stylesheet" s
  end.

(* soup.find_all("link", rel=lambda v: v and "stylesheet" in v) *)
Definition find_all_stylesheet_links (doc : soup) : list tag :=
  List.filter (fun t => String.eqb (tag_name t) "link"
                        && matches_fun rel_is_stylesheet (tag_attrs t !! "rel"))
              (descendants doc).

(* soup.find("nav"), as a truth value *)
Definition has_nav (doc : soup) : bool :=
  existsb (fun t => String.eqb (tag_name t) "nav") (descendants doc).

(* soup.find("link", rel="icon"), as a truth value *)
Definition has_icon_link (doc : soup) : bool :=
  existsb (fun t => String.eqb (tag_name t) "link"
                    && matches_str "icon" (tag_attrs t !! "rel"))
          (descendants doc).

(* soup.find(attrs={"aria-label": True}), as a truth value *)
Definition has_aria_label (doc : soup) : bool :=
  existsb (fun t => matches_true (tag_attrs t !! "aria-label"))
          (descendants doc).

(* --------------------------------------------------------------------- *)
(* The outside world: urllib, requests, the HTML parser, the clock        *)
(* --------------------------------------------------------------------- *)

(* what the program reads of a requests.Response *)
Record response : Type := MkResponse {
  r_url : string;            (* r.url, after redirects *)
  r_status : Z;              (* r.status_code *)
  r_content_len : Z;         (* len(r.content or b"") *)
  r_text : string;           (* r.text *)
  r_http_error : string;     (* str() of what raise_for_status raises *)
  r_seconds : Q              (* time.time() - t0 across the call *)
}.

Record url_parts : Type := MkUrl {
  scheme : string;
  netloc : string
}.

Record Env : Type := MkEnv {
  urlparse : string -> result url_parts;
  urljoin : string -> string -> result string;
  requests_get : string -> string -> Z -> result response;
  BeautifulSoup : string -> result soup
}.

(* raise_for_status raises on 4xx and 5xx; r.ok is its negation *)
Definition status_is_error (r : response) : bool :=
  (400 <=? r_status r) && (r_status r <? 600).

Definition r_ok (r : response) : bool := negb (status_is_error r).

Definition USER_AGENT : string := "Mozilla/5.0 (compatible; UXBenchmark/1.0)".

(* the dict fetch_html returns: either {"error": ...} or the five entries *)
Inductive fetch_result : Type :=
  | FetchError (error : string)
  | FetchOk (final_url : string) (status : Z) (elapsed : Q) (size : Z)
            (text : string).

(* def fetch_html(url, timeout=6) *)
Definition fetch_html (env : Env) (url : string) (timeout : Z)
  : result fetch_result :=
  parsed ← urlparse env url;
  let url := if String.eqb (scheme parsed) "" then "https://" ++ url else url in
  match requests_get env url USER_AGENT timeout with
  | Ok r =>
      if status_is_error r then Ok (FetchError (r_http_error r))
      else Ok (FetchOk (r_url r) (r_status r) (r_seconds r)
                       (r_content_len r) (r_text r))
  | Raise e => Ok (FetchError e)
  end.

(* hrefs[:limit] for any Python int *)
Definition py_slice_to {A : Type} (limit : Z) (l : list A) : list A :=
  if 0 <=? limit then take (Z.to_nat limit) l
  else take (length l - Z.to_nat (- limit)) l.

(* the first loop of fetch_css_assets: the resolved href of every
   stylesheet link that has a non-empty one *)
Fixpoint collect_hrefs (env : Env) (base_url : string) (links : list tag)
  : result (list string) :=
  match links with
  | [] => Ok []
  | link :: rest =>
      match tag_attrs link !! "href" with
      | Some (AttrStr href) =>
          if String.eqb href "" then collect_hrefs env base_url rest
          else
            u ← urljoin env base_url href;
            us ← collect_hrefs env base_url rest;
            Ok (u :: us)
      | Some (AttrList []) | None => collect_hrefs env base_url rest
      | Some (AttrList (_ :: _)) => Raise "TypeError"
      end
  end.

Definition CSS_CAP : N := 50000.

Definition NEWLINE : string := String "010" EmptyString.

(* the body of the second loop: one stylesheet, failures passed over *)
Definition fetch_one_css (env : Env) (timeout : Z) (h : string)
  : option string :=
  match requests_get env h USER_AGENT timeout with
  | Ok r =>
      if r_ok r && negb (String.eqb (r_text r) "")
      then Some (take_str CSS_CAP (r_text r))
      else None
  | Raise _ => None
  end.

(* hrefs after the slice: the stylesheets that are requested *)
Definition css_hrefs (env : Env) (html base_url : string) (limit : Z)
  : result (list string) :=
  doc ← BeautifulSoup env html;
  hrefs ← collect_hrefs env base_url (find_all_stylesheet_links doc);
  Ok (py_slice_to limit hrefs).

(* def fetch_css_assets(html, base_url, limit=3, timeout=4) *)
Definition fetch_css_assets (env : Env) (html base_url : string)
    (limit timeout : Z) : string :=
  match css_hrefs env html base_url limit with
  | Ok hrefs => join NEWLINE (omap (fetch_one_css env timeout) hrefs)
  | Raise _ => EmptyString
  end.

(* --------------------------------------------------------------------- *)
(* The seven factors and analyze_site                                     *)
(* --------------------------------------------------------------------- *)

Definition PRODUCT : string := "Product / UX Factor".
Definition SIMPLICITY : string := "Simplicity".
Definition NAVIGATION : string := "Navigation Ease".
Definition PERSONALITY : string := "Personality".
Definition DELIGHT : string := "Delight/Micro-Interactions".
Definition ACCESSIBILITY : string := "Accessibility".
Definition SPEED : string := "Speed & Responsiveness".
Definition EMOTIONAL : string := "Emotional Resonance".

Definition UX_FACTORS : list string :=
  [SIMPLICITY; NAVIGATION; PERSONALITY; DELIGHT; ACCESSIBILITY; SPEED;
   EMOTIONAL].

(* the entries of the debug dict that are not display roundings of floats *)
Record diagnostics : Type := MkDiag {
  diag_final_url : string;
  diag_http_status : Z;
  diag_colors_found : Z;
  diag_cohesion : Z
}.

#[global] Instance diagnostics_eq_dec : EqDecision diagnostics.
Proof. solve_decision. Defined.

(* the pair analyze_site returns: (None, message) or (scores, debug) *)
Inductive analysis : Type :=
  | Failed (message : string)
  | Analyzed (scores : gmap string Z) (debug : diagnostics).

#[global] Instance analysis_eq_dec : EqDecision analysis.
Proof. solve_decision. Defined.

(* the dict literal [scores = {...}] of analyze_site *)
Definition score_site (doc : soup) (css_text : string) (elapsed : Q)
  : gmap string Z :=
  let cohesion := cohesion_from_colors (count_colors css_text) in
  list_to_map
    [(SIMPLICITY, clamp_score (inject_Z (cohesion + 8) / 2)%Q 1 10);
     (NAVIGATION, clamp_score (inject_Z (5 + Z.b2z (has_nav doc))) 1 10);
     (PERSONALITY,
      clamp_score (inject_Z (cohesion + Z.b2z (has_icon_link doc) + 6) / 2)%Q
                  1 10);
     (DELIGHT, clamp_score (inject_Z (5 + Z.b2z (contains ":hover" css_text)))
                           1 10);
     (ACCESSIBILITY,
      clamp_score (inject_Z (6 + Z.b2z (has_aria_label doc))) 1 10);
     (SPEED,
      clamp_score (inject_Z (if Qlt_le_dec elapsed 1 then 10 else 7)) 1 10);
     (EMOTIONAL, clamp_score (inject_Z (cohesion + 8) / 2)%Q 1 10)].

(* def analyze_site(url) *)
Definition analyze_site (env : Env) (url : string) : result analysis :=
  res ← fetch_html env url 6;
  match res with
  | FetchError e => Ok (Failed e)
  | FetchOk base_url status elapsed size html =>
      doc ← BeautifulSoup env html;
      let css_text := fetch_css_assets env html base_url 3 4 in
      let palette_count := count_colors css_text in
      let cohesion := cohesion_from_colors palette_count in
      Ok (Analyzed (score_site doc css_text elapsed)
                   (MkDiag base_url status palette_count cohesion))
  end.

(* --------------------------------------------------------------------- *)
(* Dictionaries on the heap                                               *)
(* --------------------------------------------------------------------- *)

Inductive value : Type :=
  | VNone
  | VInt (z : Z)
  | VStr (s : string).

#[global] Instance value_eq_dec : EqDecision value.
Proof. solve_decision. Defined.

Definition loc : Type := nat.

(* The dict objects of the process, addressed by position, and the module
   global that lists the reference rows. *)
Record state : Type := MkState {
  objects : list (gmap string value);
  REFERENCE_BENCHMARKS : list loc
}.

(* a computation on the heap that may raise; the heap survives a raise *)
Definition M (A : Type) : Type := state -> result A * state.

#[global] Instance M_ret : MRet M := fun A a st => (Ok a, st).
#[global] Instance M_bind : MBind M := fun A B f m st =>
  match m st with
  | (Ok a, st') => f a st'
  | (Raise e, st') => (Raise e, st')
  end.

Definition lift {A : Type} (r : result A) : M A := fun st => (r, st).

(* a dict display {...}: a new object *)
Definition new_dict (d : gmap string value) : M loc := fun st =>
  (Ok (length (objects st)),
   MkState (objects st ++ [d]) (REFERENCE_BENCHMARKS st)).

(* d[key] *)
Definition dict_getitem (l : loc) (key : string) : M value := fun st =>
  match objects st !! l with
  | Some d =>
      match d !! key with
      | Some v => (Ok v, st)
      | None => (Raise "KeyError", st)
      end
  | None => (Raise "dangling reference", st)
  end.

(* d[key] = v *)
Definition dict_setitem (l : loc) (key : string) (v : value) : M unit :=
  fun st =>
  match objects st !! l with
  | Some d =>
      (Ok tt, MkState (<[l := <[key := v]> d]> (objects st))
                      (REFERENCE_BENCHMARKS st))
  | None => (Raise "dangling reference", st)
  end.

Definition read_dict (l : loc) : M (gmap string value) := fun st =>
  match objects st !! l with
  | Some d => (Ok d, st)
  | None => (Raise "dangling reference", st)
  end.

Definition get_REFERENCE_BENCHMARKS : M (list loc) := fun st =>
  (Ok (REFERENCE_BENCHMARKS st), st).

(* for x in xs: body(x) *)
Fixpoint for_each {A : Type} (xs : list A) (body : A -> M unit) : M unit :=
  match xs with
  | [] => mret tt
  | x :: rest => _ ← body x; for_each rest body
  end.

(* a loop whose body ends in rows.append(...) *)
Fixpoint for_collect {A B : Type} (xs : list A) (body : A -> M B)
  : M (list B) :=
  match xs with
  | [] => mret []
  | x :: rest => b ← body x; bs ← for_collect rest body; mret (b :: bs)
  end.

Definition ref_dict (name : string) (s n p d a sp e : Z) : gmap string value :=
  list_to_map
    [(PRODUCT, VStr name); (SIMPLICITY, VInt s); (NAVIGATION, VInt n);
     (PERSONALITY, VInt p); (DELIGHT, VInt d); (ACCESSIBILITY, VInt a);
     (SPEED, VInt sp); (EMOTIONAL, VInt e)].

Definition reference_dicts : list (gmap string value) :=
  [ref_dict "Apple iOS" 9 9 9 8 8 9 9;
   ref_dict "Airbnb" 9 9 8 8 9 9 8;
   ref_dict "Notion" 8 8 9 8 8 8 9;
   ref_dict "Tesla UI" 8 9 9 9 7 9 9;
   ref_dict "Figma" 8 9 8 9 8 10 8].

(* the heap once the module is loaded *)
Definition initial_state : state :=
  MkState reference_dicts [0; 1; 2; 3; 4]%nat.

(* --------------------------------------------------------------------- *)
(* The data frame and build_table                                         *)
(* --------------------------------------------------------------------- *)

(* One row of the frame build_table returns.  A factor that is absent from
   [row_cells] is a NaN cell.  Totals and ranks are whole numbers, which
   the frame holds exactly whether the column is int64 or float64. *)
Record frame_row : Type := MkRow {
  row_product : string;
  row_cells : gmap string Z;
  row_total : Z;
  row_rank : Z
}.

#[global] Instance frame_row_eq_dec : EqDecision frame_row.
Proof. solve_decision. Defined.

Definition int_of_value (v : value) : option Z :=
  match v with
  | VInt z => Some z
  | VNone | VStr _ => None
  end.

Definition is_numeric_cell (v : option value) : bool :=
  match v with
  | Some (VStr _) => false
  | _ => true
  end.

(* one dict of pd.DataFrame(rows): the label and the numeric cells, None
   becoming NaN.  The dicts build_table hands over have the label and the
   seven factors as their only keys. *)
Definition to_record (d : gmap string value) : result (string * gmap string Z) :=
  match d !! PRODUCT with
  | Some (VStr name) =>
      if forallb (fun f => is_numeric_cell (d !! f)) UX_FACTORS
      then Ok (name, omap int_of_value d)
      else Raise "TypeError"
  | _ => Raise "TypeError"
  end.

(* pd.DataFrame(rows) *)
Definition DataFrame (rows : list loc) : M (list (string * gmap string Z)) :=
  for_collect rows (fun l => d ← read_dict l; lift (to_record d)).

(* df[UX_FACTORS].sum(axis=1) for one row: NaN cells are skipped.  The sum
   is written exactly; the frame adds in int64, or in float64 once a cell
   is NaN, which gives the same number as long as the scores are of the
   size [frame_exact] below allows. *)
Definition row_sum (cells : gmap string Z) : Z :=
  foldr Z.add 0 (map (fun f => default 0 (cells !! f)) UX_FACTORS).

(* rank(method="min", ascending=False) of the total t among totals *)
Definition rank_min (totals : list Z) (t : Z) : Z :=
  1 + Z.of_nat (length (List.filter (fun u => t <? u) totals)).

Definition with_totals_and_ranks (df : list (string * gmap string Z))
  : list frame_row :=
  let totals := map (fun r => row_sum (snd r)) df in
  map (fun r => MkRow (fst r) (snd r) (row_sum (snd r))
                      (rank_min totals (row_sum (snd r)))) df.

(* sort_values(by="Total / 70", ascending=False).  Rows of equal total
   are left in the order they had, as the sort does on a frame this short;
   the properties below hold for any order of the ties. *)
Fixpoint insert_desc (r : frame_row) (l : list frame_row) : list frame_row :=
  match l with
  | [] => [r]
  | x :: l' =>
      if row_total x <=? row_total r then r :: x :: l'
      else x :: insert_desc r l'
  end.

Definition sort_values (df : list frame_row) : list frame_row :=
  foldr insert_desc [] df.

(* the body of the first loop of build_table *)
Definition copy_row (ref : loc) : M loc :=
  name ← dict_getitem ref PRODUCT;
  row ← new_dict {[PRODUCT := name]};
  _ ← for_each UX_FACTORS (fun f =>
        v ← dict_getitem ref f; dict_setitem row f v);
  mret row.

(* target_scores.get(f, None) *)
Definition get_or_None (target_scores : gmap string Z) (f : string) : value :=
  match target_scores !! f with
  | Some z => VInt z
  | None => VNone
  end.

(* def build_table(target_label, target_scores) *)
Definition build_table (target_label : string) (target_scores : gmap string Z)
  : M (list frame_row) :=
  refs ← get_REFERENCE_BENCHMARKS;
  rows ← for_collect refs copy_row;
  trow ← new_dict {[PRODUCT := VStr target_label]};
  _ ← for_each UX_FACTORS (fun f =>
        dict_setitem trow f (get_or_None target_scores f));
  df ← DataFrame (rows ++ [trow]);
  mret (sort_values (with_totals_and_ranks df)).

(* --------------------------------------------------------------------- *)
(* The button handler                                                     *)
(* --------------------------------------------------------------------- *)

Inductive screen : Type :=
  | ShowError (text : string)
  | ShowBenchmark (df : list frame_row) (scores : gmap string Z)
                  (debug : diagnostics).

(* the block under [if analyze_btn:] *)
Definition on_analyze (env : Env) (url : string) : M screen :=
  a ← lift (analyze_site env url);
  match a with
  | Failed debug => mret (ShowError ("Could not analyze. Error: " ++ debug))
  | Analyzed scores debug =>
      parts ← lift (urlparse env url);
      let site_label :=
        if String.eqb (netloc parts) "" then url else netloc parts in
      df ← build_table site_label scores;
      mret (ShowBenchmark df scores debug)
  end.

(* what a session can do to the heap, one call after the other; a call
   that raises ends that call only *)
Inductive call : Type :=
  | CallAnalyze (env : Env) (url : string)
  | CallBuildTable (label : string) (scores : gmap string Z)
  | CallButton (env : Env) (url : string).

Definition run_call (c : call) (st : state) : state :=
  match c with
  | CallAnalyze env url => snd (lift (analyze_site env url) st)
  | CallBuildTable label scores => snd (build_table label scores st)
  | CallButton env url => snd (on_analyze env url st)
  end.

Definition run_calls (cs : list call) (st : state) : state :=
  foldl (fun st c => run_call c st) st cs.

(* the reference rows as the heap holds them *)
Definition reference_rows (st : state) : list (option (gmap string value)) :=
  map (fun l => objects st !! l) (REFERENCE_BENCHMARKS st).

(* --------------------------------------------------------------------- *)
(* Vocabulary of the properties                                           *)
(* --------------------------------------------------------------------- *)

(* the stylesheet URLs fetch_css_assets asks for (none when the outer
   try block is left early) *)
Definition requested_css (env : Env) (html base_url : string) (limit : Z)
  : list string :=
  match css_hrefs env html base_url limit with
  | Ok hrefs => hrefs
  | Raise _ => []
  end.

(* u is the resolved href of a <link rel="stylesheet"> element of the page *)
Definition is_stylesheet_href (env : Env) (html base_url u : string) : Prop :=
  exists doc link href,
    BeautifulSoup env html = Ok doc
    /\ link ∈ descendants doc
    /\ tag_name link = "link"
    /\ matches_fun rel_is_stylesheet (tag_attrs link !! "rel") = true
    /\ tag_attrs link !! "href" = Some (AttrStr href)
    /\ urljoin env base_url href = Ok u.

(* the size in bytes of a text once encoded in UTF-8: one byte for a code
   point below 128, two for the others below 256 *)
Fixpoint utf8_len (s : string) : N :=
  match s with
  | EmptyString => 0%N
  | String c s' => ((if (code c <? 128)%N then 1 else 2) + utf8_len s')%N
  end.

(* the URL fetch_html requests for url *)
Definition effective_url (parts : url_parts) (url : string) : string :=
  if String.eqb (scheme parts) "" then "https://" ++ url else url.

(* the URL parses and the GET of the page fails with message msg: the
   request raises, or the status check on its response does.  A URL that
   urlparse rejects is not covered: fetch_html raises on it. *)
Definition page_fetch_fails (env : Env) (url msg : string) : Prop :=
  exists parts,
    urlparse env url = Ok parts
    /\ (requests_get env (effective_url parts url) USER_AGENT 6 = Raise msg
        \/ exists r,
             requests_get env (effective_url parts url) USER_AGENT 6 = Ok r
             /\ status_is_error r = true /\ msg = r_http_error r).

(* the request for stylesheet h fails *)
Definition css_request_raises (env : Env) (timeout : Z) (h : string) : bool :=
  match requests_get env h USER_AGENT timeout with
  | Ok _ => false
  | Raise _ => true
  end.

(* --------------------------------------------------------------------- *)
(* Concrete worlds                                                        *)
(* --------------------------------------------------------------------- *)

Fixpoint repeat_char (c : ascii) (n : nat) : string :=
  match n with
  | O => EmptyString
  | S n' => String c (repeat_char c n')
  end.

Definition scenario_html : string :=
  "<nav></nav><link rel='icon' href='/f.ico'><link rel='stylesheet' href='/s.css'><p aria-label='x'></p>".

Definition scenario_doc : soup :=
  [Tag "nav" ∅ [];
   Tag "link" (list_to_map [("rel", AttrList ["icon"]); ("href", AttrStr "/f.ico")]) [];
   Tag "link" (list_to_map [("rel", AttrList ["stylesheet"]); ("href", AttrStr "/s.css")]) [];
   Tag "p" (list_to_map [("aria-label", AttrStr "x")]) []].

Definition simple_urlparse (url : string) : result url_parts :=
  match strip_prefix "https://" url with
  | Some rest => Ok (MkUrl "https" rest)
  | None => Ok (MkUrl "" "")
  end.

Definition simple_urljoin (base_url href : string) : result string :=
  Ok ("https://example.com" ++ href).

Definition page_response (html : string) : response :=
  MkResponse "https://example.com/" 200 (Z.of_nat (String.length html)) html
             "" (3 # 10).

Definition css_response (css : string) : response :=
  MkResponse "https://example.com/s.css" 200 (Z.of_N (utf8_len css)) css
             "" (1 # 10).

(* a site that serves one page and one stylesheet with the given text *)
Definition site_env (css : string) : Env :=
  MkEnv simple_urlparse simple_urljoin
    (fun url _ _ =>
       if String.eqb url "https://example.com" then Ok (page_response scenario_html)
       else if String.eqb url "https://example.com/s.css" then Ok (css_response css)
       else Raise "ConnectionError")
    (fun html => Ok scenario_doc).

Definition scenario_env : Env := site_env "a:hover{color:#123456}".

(* a stylesheet of 50,000 characters, each of two bytes in UTF-8 *)
Definition wide_css : string := repeat_char (ascii_of_N 233) 50000.

(* no host answers *)
Definition offline_env : Env :=
  MkEnv simple_urlparse simple_urljoin
    (fun _ _ _ => Raise "ConnectionError") (fun _ => Ok []).

Definition scores_of_list (l : list (string * Z)) : gmap string Z :=
  list_to_map l.

(* the scores of the scenario as the program computes them *)
Definition scenario_scores : gmap string Z :=
  scores_of_list
    [(SIMPLICITY, 9); (NAVIGATION, 6); (PERSONALITY, 8); (DELIGHT, 6);
     (ACCESSIBILITY, 7); (SPEED, 10); (EMOTIONAL, 9)].

(* the same with Personality 9 *)
Definition scenario_scores_personality_9 : gmap string Z :=
  scores_of_list
    [(SIMPLICITY, 9); (NAVIGATION, 6); (PERSONALITY, 9); (DELIGHT, 6);
     (ACCESSIBILITY, 7); (SPEED, 10); (EMOTIONAL, 9)].

(* --------------------------------------------------------------------- *)
(* Vocabulary of the table properties                                     *)
(* --------------------------------------------------------------------- *)

(* a dict with a label and the seven factors *)
Definition full_row (d : gmap string value) : Prop :=
  is_Some (d !! PRODUCT) /\ Forall (fun f => is_Some (d !! f)) UX_FACTORS.

(* the dict the first loop of build_table makes out of d *)
Definition copy_of (d : gmap string value) : gmap string value :=
  foldl (fun acc f => <[f := default VNone (d !! f)]> acc)
        {[PRODUCT := default VNone (d !! PRODUCT)]} UX_FACTORS.

(* the dict build_table makes for the target *)
Definition target_dict (label : string) (scores : gmap string Z)
  : gmap string value :=
  foldl (fun acc f => <[f := get_or_None scores f]> acc)
        {[PRODUCT := VStr label]} UX_FACTORS.

Definition record_of (d : gmap string value) : string * gmap string Z :=
  (match d !! PRODUCT with Some (VStr name) => name | _ => "" end,
   omap int_of_value d).

(* the frame build_table returns, as a function of its arguments *)
Definition table_of (label : string) (scores : gmap string Z)
  : list frame_row :=
  sort_values
    (with_totals_and_ranks
       (map record_of (reference_dicts ++ [target_dict label scores]))).

(* the target row of the frame *)
Definition target_row (label : string) (scores : gmap string Z) : frame_row :=
  let cells := snd (record_of (target_dict label scores)) in
  MkRow label cells (row_sum cells)
        (rank_min (map (fun r => row_sum (snd r))
                       (map record_of (reference_dicts
                                       ++ [target_dict label scores])))
                  (row_sum cells)).

(* the reference rows are where the module put them, as it put them *)
Definition refs_intact (st : state) : Prop :=
  REFERENCE_BENCHMARKS st = [0; 1; 2; 3; 4]%nat
  /\ exists extra, objects st = (reference_dicts ++ extra)%list.

(* the order of the returned rows: totals go down *)
Definition desc (a b : frame_row) : Prop := row_total b <= row_total a.

(* a dense rank: one more than the number of distinct larger totals *)
Definition dense_rank (totals : list Z) (t : Z) : Z :=
  1 + Z.of_nat (length (remove_dups (List.filter (fun u => t <? u) totals))).

Definition REFERENCE_NAMES : list string :=
  ["Apple iOS"; "Airbnb"; "Notion"; "Tesla UI"; "Figma"].

(* --------------------------------------------------------------------- *)
(* Vocabulary of the further properties                                   *)
(* --------------------------------------------------------------------- *)

(* every character of s satisfies p *)
Fixpoint all_chars (p : ascii -> bool) (s : string) : bool :=
  match s with
  | EmptyString => true
  | String c s' => p c && all_chars p s'
  end.

(* t occurs in s *)
Definition substring_of (t s : string) : Prop :=
  exists pre post, s = pre ++ t ++ post.

(* hrefs before the slice: every stylesheet link that resolves *)
Definition linked_css (env : Env) (html base_url : string) : list string :=
  match BeautifulSoup env html with
  | Ok doc =>
      match collect_hrefs env base_url (find_all_stylesheet_links doc) with
      | Ok hrefs => hrefs
      | Raise _ => []
      end
  | Raise _ => []
  end.

(* product, total and rank of the rows of a frame *)
Definition summary (df : list frame_row) : list (string * Z * Z) :=
  map (fun r => (row_product r, row_total r, row_rank r)) df.

(* the reference rows as they stand above a target of a lower total *)
Definition REFERENCE_SUMMARY : list (string * Z * Z) :=
  [("Apple iOS", 61, 1); ("Airbnb", 60, 2); ("Tesla UI", 60, 2);
   ("Figma", 60, 2); ("Notion", 58, 5)].

(* the label the handler gives the target *)
Definition site_label (parts : url_parts) (url : string) : string :=
  if String.eqb (netloc parts) "" then url else netloc parts.

(* the rank of a target of total t beside the five reference rows *)
Definition target_rank (t : Z) : Z :=
  if 61 <=? t then 1 else if 60 <=? t then 2 else if 58 <=? t then 5 else 6.

(* a heap whose first reference row has lost a factor *)
Definition damaged_state : state :=
  MkState (delete SPEED (ref_dict "Apple iOS" 9 9 9 8 8 9 9)
           :: tail reference_dicts)
          [0; 1; 2; 3; 4]%nat.

(* a site whose stylesheet link cannot be resolved *)
Definition unresolvable_env : Env :=
  MkEnv simple_urlparse (fun _ _ => Raise "ValueError")
    (fun url _ _ =>
       if String.eqb url "https://example.com" then Ok (page_response scenario_html)
       else Ok (css_response "a{color:#fff}"))
    (fun html => Ok scenario_doc).

(* a site whose page the parser rejects *)
Definition unparsable_env : Env :=
  MkEnv simple_urlparse simple_urljoin
    (fun url _ _ => Ok (page_response scenario_html))
    (fun html => Raise "ParserRejectedMarkup").

(* the largest score the sums of a frame row hold exactly: seven of
   them stay below 2^53, so int64 does not wrap and float64 does not
   round *)
Definition FRAME_EXACT : Z := 1125899906842624.

(* the scores of the seven factors are of that size; those of a ScoreSet,
   from 1 to 10, are *)
Definition frame_exact (scores : gmap string Z) : Prop :=
  forall f v,
    f ∈ UX_FACTORS -> scores !! f = Some v ->
    - FRAME_EXACT <= v <= FRAME_EXACT.

(* a world in which urlparse rejects an unclosed bracket, as urllib does *)
Definition malformed_url_env : Env :=
  MkEnv (fun url =>
           if String.eqb url "http://[" then Raise "Invalid IPv6 URL"
           else simple_urlparse url)
        simple_urljoin
        (fun _ _ _ => Raise "ConnectionError") (fun _ => Ok []).

(* ===================================================================== *)
(* Properties                                                             *)
(* ===================================================================== *)

(* a closed decidable statement, settled by evaluating its decision *)
Ltac decide_closed := apply (bool_decide_unpack _); vm_compute; exact I.

(* --------------------------------------------------------------------- *)
(* cohesion_from_colors                                                   *)
(* --------------------------------------------------------------------- *)

Lemma cohesion_cases (c : Z) :
  (c <= 6 /\ cohesion_from_colors c = 10)
  \/ (6 < c <= 12 /\ cohesion_from_colors c = 8)
  \/ (12 < c <= 24 /\ cohesion_from_colors c = 6)
  \/ (24 < c <= 48 /\ cohesion_from_colors c = 4)
  \/ (48 < c /\ cohesion_from_colors c = 2).
Proof.
  unfold cohesion_from_colors.
  destruct (Z.leb_spec c 6); [lia|].
  destruct (Z.leb_spec c 12); [lia|].
  destruct (Z.leb_spec c 24); [lia|].
  destruct (Z.leb_spec c 48); lia.
Qed.

(** C4: for every color count c (the non-negative ones among them),
    cohesion_from_colors c is one of 10, 8, 6, 4, 2, it never grows when c
    grows, and it follows the thresholds c<=6 -> 10, c<=12 -> 8,
    c<=24 -> 6, c<=48 -> 4, otherwise 2. *)
Theorem cohesion_from_colors_step (c : Z) :
  cohesion_from_colors c ∈ [10; 8; 6; 4; 2]
  /\ (forall c', c <= c' -> cohesion_from_colors c' <= cohesion_from_colors c)
  /\ (c <= 6 -> cohesion_from_colors c = 10)
  /\ (6 < c <= 12 -> cohesion_from_colors c = 8)
  /\ (12 < c <= 24 -> cohesion_from_colors c = 6)
  /\ (24 < c <= 48 -> cohesion_from_colors c = 4)
  /\ (48 < c -> cohesion_from_colors c = 2).
Proof.
  split; [|split].
  - destruct (cohesion_cases c) as [[_ ->]|[[_ ->]|[[_ ->]|[[_ ->]|[_ ->]]]]];
      set_solver.
  - intros c' Hle.
    destruct (cohesion_cases c) as [H|[H|[H|[H|H]]]];
      destruct (cohesion_cases c') as [H'|[H'|[H'|[H'|H']]]]; lia.
  - destruct (cohesion_cases c) as [H|[H|[H|[H|H]]]]; repeat split; lia.
Qed.

(* --------------------------------------------------------------------- *)
(* round and clamp_score                                                  *)
(* --------------------------------------------------------------------- *)

Lemma py_round_int (z : Z) : py_round (inject_Z z) = z.
Proof.
  unfold py_round. rewrite Qfloor_Z.
  assert (H : (inject_Z z - inject_Z z ?= 1 # 2)%Q = Lt).
  { rewrite <- Qlt_alt. lra. }
  by rewrite H.
Qed.

Lemma frac_range (x : Q) : (0 <= frac x /\ frac x < 1)%Q.
Proof.
  unfold frac. pose proof (Qfloor_le x) as Hlo. pose proof (Qlt_floor x) as Hhi.
  rewrite inject_Z_plus in Hhi. change (inject_Z 1) with 1%Q in Hhi.
  split; lra.
Qed.

(* round goes to a nearest integer *)
Lemma py_round_nearest (x : Q) :
  (Qabs (x - inject_Z (py_round x)) <= 1 # 2)%Q.
Proof.
  destruct (frac_range x) as [Hlo Hhi]. unfold frac in *.
  apply Qabs_Qle_condition. unfold py_round.
  destruct (Qcompare (x - inject_Z (Qfloor x)) (1 # 2)) eqn:Hc.
  - apply Qeq_alt in Hc. destruct (Z.even (Qfloor x));
      rewrite ?inject_Z_plus; change (inject_Z 1) with 1%Q; split; lra.
  - apply Qlt_alt in Hc. split; lra.
  - apply Qgt_alt in Hc. rewrite inject_Z_plus. change (inject_Z 1) with 1%Q.
    split; lra.
Qed.

(* a tie goes to the even neighbour *)
Lemma py_round_tie (x : Q) :
  (frac x == 1 # 2)%Q -> Z.even (py_round x) = true.
Proof.
  unfold frac, py_round. intros H. apply Qeq_alt in H. rewrite H.
  destruct (Z.even (Qfloor x)) eqn:He; [exact He|].
  rewrite Z.even_add, He. reflexivity.
Qed.

(** C5: for every score s before rounding, clamp_score s lies in [1,10]
    and is round(s) saturated to these bounds: 1 when round(s) is below 1,
    10 when it is above 10, round(s) itself otherwise, that is
    max(1, min(10, round(s))). *)
Theorem clamp_score_saturates (s : Q) :
  1 <= clamp_score s 1 10 <= 10
  /\ clamp_score s 1 10 = Z.max 1 (Z.min 10 (py_round s))
  /\ clamp_score s 1 10 =
       (if py_round s <? 1 then 1
        else if 10 <? py_round s then 10 else py_round s).
Proof.
  unfold clamp_score.
  destruct (Z.ltb_spec (py_round s) 1); destruct (Z.ltb_spec 10 (py_round s)); lia.
Qed.

(* --------------------------------------------------------------------- *)
(* count_colors                                                           *)
(* --------------------------------------------------------------------- *)

Lemma size_list_to_set_remove_dups (l : list string) :
  size (list_to_set l : gset string) = length (remove_dups l).
Proof.
  rewrite <- (size_list_to_set (C:=gset string) (remove_dups l))
    by apply NoDup_remove_dups.
  f_equal. apply set_eq. intros x.
  rewrite !elem_of_list_to_set, elem_of_remove_dups. done.
Qed.

Lemma count_colors_remove_dups (css : string) :
  count_colors css = Z.of_nat (length (remove_dups (color_tokens css))).
Proof. unfold count_colors. by rewrite size_list_to_set_remove_dups. Qed.

Lemma count_colors_same_tokens (css1 css2 : string) :
  (forall t, t ∈ color_tokens css1 <-> t ∈ color_tokens css2) ->
  count_colors css1 = count_colors css2.
Proof.
  intros H. unfold count_colors. do 2 f_equal. apply set_eq. intros t.
  rewrite !elem_of_list_to_set. apply H.
Qed.

Example count_example : count_colors "#fff, #fff, rgb(1,2,3)" = 2.
Proof. vm_compute. reflexivity. Qed.

Example count_no_colors : cohesion_from_colors (count_colors "") = 10.
Proof. vm_compute. reflexivity. Qed.

(** C3: count_colors counts the distinct color tokens, compared as literal
    strings: it is the length of the token list without its duplicates, it
    depends only on which tokens occur (not on how often or where), #fff
    and #ffffff count as two, and the text [#fff, #fff, rgb(1,2,3)] has
    2 colors wherever the duplicate stands. *)
Theorem count_colors_distinct_literals :
  (forall css,
     count_colors css = Z.of_nat (length (remove_dups (color_tokens css))))
  /\ (forall css1 css2,
        (forall t, t ∈ color_tokens css1 <-> t ∈ color_tokens css2) ->
        count_colors css1 = count_colors css2)
  /\ color_tokens "#fff #ffffff" = ["#fff"; "#ffffff"]
  /\ count_colors "#fff #ffffff" = 2
  /\ color_tokens "#fff, #fff, rgb(1,2,3)" = ["#fff"; "#fff"; "rgb(1,2,3)"]
  /\ count_colors "#fff, #fff, rgb(1,2,3)" = 2
  /\ count_colors "#fff, rgb(1,2,3), #fff" = 2
  /\ count_colors "rgb(1,2,3), #fff, #fff" = 2.
Proof.
  split; [exact count_colors_remove_dups|].
  split; [exact count_colors_same_tokens|].
  repeat split; vm_compute; reflexivity.
Qed.

(* --------------------------------------------------------------------- *)
(* fetch_css_assets                                                       *)
(* --------------------------------------------------------------------- *)

Lemma length_take_str (n : N) (s : string) :
  (N.of_nat (String.length (take_str n s)) <= n)%N.
Proof.
  revert n. induction s as [|c s IH]; intros n; simpl; [lia|].
  destruct (N.eqb_spec n 0); simpl; [lia|].
  specialize (IH (N.pred n)). lia.
Qed.

Lemma py_slice_to_length {A : Type} (limit : Z) (l : list A) :
  0 <= limit -> Z.of_nat (length (py_slice_to limit l)) <= limit.
Proof.
  intros H. unfold py_slice_to.
  destruct (Z.leb_spec 0 limit); [|lia]. rewrite length_take. lia.
Qed.

Lemma py_slice_to_elem {A : Type} (limit : Z) (l : list A) (x : A) :
  x ∈ py_slice_to limit l -> x ∈ l.
Proof.
  unfold py_slice_to. destruct (0 <=? limit).
  - intros H. rewrite <- (take_drop (Z.to_nat limit) l). set_solver.
  - intros H. rewrite <- (take_drop (length l - Z.to_nat (- limit)) l).
    set_solver.
Qed.

Section css_assets.

Variable env : Env.

Lemma collect_hrefs_elem (base_url : string) (links : list tag) :
  forall us u,
    collect_hrefs env base_url links = Ok us -> u ∈ us ->
    exists link href,
      link ∈ links
      /\ tag_attrs link !! "href" = Some (AttrStr href)
      /\ urljoin env base_url href = Ok u.
Proof.
  induction links as [|link rest IH]; intros us u Hc Hu; simpl in Hc.
  - inversion Hc; subst. set_solver.
  - assert (Hrest : forall us', collect_hrefs env base_url rest = Ok us' ->
                                u ∈ us' ->
              exists link0 href, link0 ∈ link :: rest
                /\ tag_attrs link0 !! "href" = Some (AttrStr href)
                /\ urljoin env base_url href = Ok u).
    { intros us' H1 H2. destruct (IH us' u H1 H2) as (l0 & h & ? & ? & ?).
      exists l0, h. set_solver. }
    destruct (tag_attrs link !! "href") as [[href|[|x l]]|] eqn:Hhref;
      try (by eapply Hrest); try discriminate.
    destruct (String.eqb href ""); [by eapply Hrest|].
    destruct (urljoin env base_url href) as [u0|] eqn:Hj; [|discriminate].
    simpl in Hc.
    destruct (collect_hrefs env base_url rest) as [us0|] eqn:Hr; [|discriminate].
    simpl in Hc. inversion Hc; subst.
    apply elem_of_cons in Hu as [->|Hu].
    + exists link, href. set_solver.
    + by eapply Hrest.
Qed.

Lemma requested_css_from_links (html base_url : string)
    (limit : Z) (u : string) :
  u ∈ requested_css env html base_url limit ->
  is_stylesheet_href env html base_url u.
Proof.
  unfold requested_css, css_hrefs.
  destruct (BeautifulSoup env html) as [doc|] eqn:Hdoc; simpl; [|set_solver].
  destruct (collect_hrefs env base_url (find_all_stylesheet_links doc))
    as [hrefs|] eqn:Hc; simpl; [|set_solver].
  intros Hu. apply py_slice_to_elem in Hu.
  destruct (collect_hrefs_elem _ _ _ _ Hc Hu) as (link & href & Hl & Hh & Hj).
  unfold find_all_stylesheet_links in Hl.
  apply list_elem_of_In, filter_In in Hl as [Hl Hm].
  apply andb_true_iff in Hm as [Hn Hm]. apply String.eqb_eq in Hn.
  exists doc, link, href. rewrite list_elem_of_In. done.
Qed.

Lemma requested_css_length (html base_url : string) (limit : Z) :
  0 <= limit ->
  Z.of_nat (length (requested_css env html base_url limit)) <= limit.
Proof.
  intros H. unfold requested_css, css_hrefs.
  destruct (BeautifulSoup env html) as [doc|]; simpl; [|lia].
  destruct (collect_hrefs env base_url (find_all_stylesheet_links doc));
    simpl; [|lia].
  by apply py_slice_to_length.
Qed.

Lemma fetch_css_assets_join (html base_url : string)
    (limit timeout : Z) :
  fetch_css_assets env html base_url limit timeout =
  join NEWLINE (omap (fetch_one_css env timeout)
                     (requested_css env html base_url limit)).
Proof.
  unfold fetch_css_assets, requested_css.
  by destruct (css_hrefs env html base_url limit).
Qed.

Lemma fetch_one_css_Some (timeout : Z) (h b : string) :
  fetch_one_css env timeout h = Some b ->
  exists r, requests_get env h USER_AGENT timeout = Ok r
            /\ r_ok r = true /\ r_text r <> ""
            /\ b = take_str CSS_CAP (r_text r).
Proof.
  unfold fetch_one_css.
  destruct (requests_get env h USER_AGENT timeout) as [r|]; [|discriminate].
  destruct (r_ok r) eqn:Hok; cbn [andb]; [|discriminate].
  destruct (String.eqb_spec (r_text r) ""); cbn [negb]; [discriminate|].
  intros [= <-]. by exists r.
Qed.

Lemma length_omap_le {A B : Type} (f : A -> option B) (l : list A) :
  (length (omap f l) <= length l)%nat.
Proof.
  induction l as [|x l IH]; csimpl; [lia|]. destruct (f x); csimpl; lia.
Qed.

(** C6, as the code has it: for a limit that is not negative (3 by
    default), fetch_css_assets requests at most limit stylesheets, each the
    resolved href of a link rel=stylesheet element of the page, keeps of
    each surviving body its first CSS_CAP = 50,000 characters, and returns
    the kept bodies joined by newlines. *)
Theorem fetch_css_assets_limit_and_cap (html base_url : string)
    (limit timeout : Z) :
  0 <= limit ->
  let hrefs := requested_css env html base_url limit in
  let bodies := omap (fetch_one_css env timeout) hrefs in
  fetch_css_assets env html base_url limit timeout = join NEWLINE bodies
  /\ Z.of_nat (length hrefs) <= limit
  /\ (forall u, u ∈ hrefs -> is_stylesheet_href env html base_url u)
  /\ (length bodies <= length hrefs)%nat
  /\ (forall b, b ∈ bodies ->
        (N.of_nat (String.length b) <= CSS_CAP)%N
        /\ exists u r,
             u ∈ hrefs
             /\ requests_get env u USER_AGENT timeout = Ok r
             /\ r_ok r = true
             /\ b = take_str CSS_CAP (r_text r)).
Proof.
  intros Hlimit hrefs bodies.
  split; [apply fetch_css_assets_join|].
  split; [by apply requested_css_length|].
  split; [intros u; apply requested_css_from_links|].
  split; [apply length_omap_le|].
  intros b Hb. apply list_elem_of_omap in Hb as (u & Hu & Hf).
  apply fetch_one_css_Some in Hf as (r & Hr & Hok & _ & ->).
  split; [apply length_take_str|]. by exists u, r.
Qed.

End css_assets.

(* the witness: the page of the scenario, with the default limit *)
Lemma fetch_css_assets_limit_and_cap_witness :
  fetch_css_assets scenario_env scenario_html "https://example.com/" 3 4
  = "a:hover{color:#123456}"
  /\ requested_css scenario_env scenario_html "https://example.com/" 3
     = ["https://example.com/s.css"].
Proof.
  split; [|reflexivity].
  rewrite (proj1 (fetch_css_assets_limit_and_cap scenario_env scenario_html
                    "https://example.com/" 3 4 ltac:(lia))).
  reflexivity.
Defined.

(** C6, the counterexample: a stylesheet of 50,000 two-byte characters
    (100,000 bytes of UTF-8) survives whole as the one body of the result,
    so the bodies are not cut to 50,000 bytes. *)
Lemma css_cap_is_not_in_bytes :
  ~ Forall (fun b => (utf8_len b <= 50000)%N)
           (omap (fetch_one_css (site_env wide_css) 4)
                 (requested_css (site_env wide_css) scenario_html
                                "https://example.com/" 3))
  /\ utf8_len (fetch_css_assets (site_env wide_css) scenario_html
                                "https://example.com/" 3 4) = 100000%N.
Proof.
  split.
  - intros H. apply (bool_decide_pack _) in H. vm_compute in H. exact H.
  - vm_compute. reflexivity.
Qed.

(* --------------------------------------------------------------------- *)
(* Failures                                                               *)
(* --------------------------------------------------------------------- *)

Lemma fetch_html_error_iff (env : Env) (url msg : string) :
  fetch_html env url 6 = Ok (FetchError msg) <-> page_fetch_fails env url msg.
Proof.
  unfold fetch_html, page_fetch_fails.
  destruct (urlparse env url) as [parts|e] eqn:Hp; simpl.
  - fold (effective_url parts url).
    destruct (requests_get env (effective_url parts url) USER_AGENT 6)
      as [r|e] eqn:Hr.
    + destruct (status_is_error r) eqn:Hs; split.
      * intros H. simplify_eq. exists parts. split; [done|]. right.
        by exists r.
      * intros (p & Hp' & [H|(r' & Hr' & Hs' & Hm)]); simplify_eq; congruence.
      * discriminate.
      * intros (p & Hp' & [H|(r' & Hr' & Hs' & Hm)]); simplify_eq; congruence.
    + split.
      * intros H. simplify_eq. exists parts. split; [done|]. by left.
      * intros (p & Hp' & [H|(r' & Hr' & Hs' & Hm)]); simplify_eq; congruence.
  - split; [discriminate|]. intros (p & H & _). discriminate.
Qed.

Lemma analyze_site_failed_iff (env : Env) (url msg : string) :
  page_fetch_fails env url msg <-> analyze_site env url = Ok (Failed msg).
Proof.
  rewrite <- fetch_html_error_iff. unfold analyze_site.
  destruct (fetch_html env url 6) as [[e|base st el sz html]|e]; simpl.
  - split; intros [= <-]; done.
  - destruct (BeautifulSoup env html); simpl; split; discriminate.
  - split; discriminate.
Qed.

Lemma on_analyze_failed (env : Env) (url msg : string) (st : state) :
  analyze_site env url = Ok (Failed msg) ->
  on_analyze env url st =
  (Ok (ShowError ("Could not analyze. Error: " ++ msg)), st).
Proof.
  intros H. unfold on_analyze, lift, mbind, M_bind. rewrite H. reflexivity.
Qed.

Lemma fetch_one_css_raises (env : Env) (timeout : Z) (h : string) :
  css_request_raises env timeout h = true -> fetch_one_css env timeout h = None.
Proof.
  unfold css_request_raises, fetch_one_css.
  destruct (requests_get env h USER_AGENT timeout); [discriminate|done].
Qed.

Lemma omap_drop_failures (env : Env) (timeout : Z) (hrefs : list string) :
  omap (fetch_one_css env timeout)
       (List.filter (fun h => negb (css_request_raises env timeout h)) hrefs)
  = omap (fetch_one_css env timeout) hrefs.
Proof.
  induction hrefs as [|h hrefs IH]; [done|]. cbn [List.filter].
  destruct (css_request_raises env timeout h) eqn:Hh; cbn [negb]; csimpl.
  - rewrite (fetch_one_css_raises _ _ _ Hh). exact IH.
  - by rewrite IH.
Qed.

Lemma analyze_site_succeeds (env : Env) (url base_url html : string)
    (status size : Z) (elapsed : Q) (doc : soup) :
  fetch_html env url 6 = Ok (FetchOk base_url status elapsed size html) ->
  BeautifulSoup env html = Ok doc ->
  analyze_site env url =
  Ok (Analyzed
        (score_site doc (fetch_css_assets env html base_url 3 4) elapsed)
        (MkDiag base_url status
           (count_colors (fetch_css_assets env html base_url 3 4))
           (cohesion_from_colors
              (count_colors (fetch_css_assets env html base_url 3 4))))).
Proof.
  intros Hf Hd. unfold analyze_site. rewrite Hf. simpl. rewrite Hd. reflexivity.
Qed.

(* urlparse is called before the try block: what it raises is not turned
   into a message *)
Lemma analyze_site_urlparse_raises (env : Env) (url e : string) :
  urlparse env url = Raise e -> analyze_site env url = Raise e.
Proof. intros H. unfold analyze_site, fetch_html. by rewrite H. Qed.

(* What does hold: once the URL has parsed, analyze_site returns
   (None, message) exactly when the GET of the page or its status check
   fails, the handler then shows the error and builds no table; a
   stylesheet whose request raises contributes nothing; and the analysis
   of a fetched page that the parser accepts succeeds whatever the
   stylesheet requests do. *)
Lemma network_failure_is_reported (env : Env) (url : string)
    (st : state) :
  (forall msg,
     page_fetch_fails env url msg <-> analyze_site env url = Ok (Failed msg))
  /\ (forall msg,
        page_fetch_fails env url msg ->
        on_analyze env url st =
        (Ok (ShowError ("Could not analyze. Error: " ++ msg)), st))
  /\ (forall html base_url limit timeout,
        fetch_css_assets env html base_url limit timeout =
        join NEWLINE
          (omap (fetch_one_css env timeout)
             (List.filter (fun h => negb (css_request_raises env timeout h))
                          (requested_css env html base_url limit))))
  /\ (forall base_url status elapsed size html doc,
        fetch_html env url 6 = Ok (FetchOk base_url status elapsed size html) ->
        BeautifulSoup env html = Ok doc ->
        exists scores debug,
          analyze_site env url = Ok (Analyzed scores debug)).
Proof.
  split; [intros msg; apply analyze_site_failed_iff|].
  split.
  { intros msg H. apply on_analyze_failed. by apply analyze_site_failed_iff. }
  split.
  { intros. rewrite omap_drop_failures. apply fetch_css_assets_join. }
  intros base_url status elapsed size html doc Hf Hd.
  eexists _, _. by eapply analyze_site_succeeds.
Qed.

(* no host answers *)
Lemma network_failure_is_reported_offline :
  page_fetch_fails offline_env "example.com" "ConnectionError"
  /\ on_analyze offline_env "example.com" initial_state =
     (Ok (ShowError "Could not analyze. Error: ConnectionError"), initial_state).
Proof.
  assert (H : page_fetch_fails offline_env "example.com" "ConnectionError").
  { exists (MkUrl "" ""). split; [reflexivity|]. left. reflexivity. }
  split; [exact H|].
  exact (proj1 (proj2 (network_failure_is_reported
                         offline_env "example.com" initial_state)) _ H).
Defined.

(** C7: the code against the claim.  On a URL that urlparse rejects,
    fetch_html raises before its try block: analyze_site returns no
    (None, message) pair, the exception goes through the handler and no
    error is shown.  And a failure other than the page fetch is fatal: on a
    page that was fetched with success and on which the parser raises, the
    exception leaves analyze_site and the handler as well. *)
Theorem exceptions_escape_analyze_site :
  analyze_site malformed_url_env "http://[" = Raise "Invalid IPv6 URL"
  /\ on_analyze malformed_url_env "http://[" initial_state
     = (Raise "Invalid IPv6 URL", initial_state)
  /\ ~ (exists msg,
          analyze_site malformed_url_env "http://[" = Ok (Failed msg))
  /\ fetch_html unparsable_env "example.com" 6
     = Ok (FetchOk "https://example.com/" 200 (3 # 10)
                   (Z.of_nat (String.length scenario_html)) scenario_html)
  /\ analyze_site unparsable_env "example.com" = Raise "ParserRejectedMarkup"
  /\ on_analyze unparsable_env "example.com" initial_state
     = (Raise "ParserRejectedMarkup", initial_state).
Proof.
  assert (H1 : analyze_site malformed_url_env "http://["
               = Raise "Invalid IPv6 URL") by reflexivity.
  assert (H2 : analyze_site unparsable_env "example.com"
               = Raise "ParserRejectedMarkup") by reflexivity.
  split; [exact H1|]. split.
  { unfold on_analyze, lift, mbind, M_bind. by rewrite H1. }
  split; [intros [msg H]; rewrite H1 in H; discriminate|].
  split; [reflexivity|]. split; [exact H2|].
  unfold on_analyze, lift, mbind, M_bind. by rewrite H2.
Qed.

(* --------------------------------------------------------------------- *)
(* The scores of analyze_site                                             *)
(* --------------------------------------------------------------------- *)

Lemma clamp_score_range (x : Q) : 1 <= clamp_score x 1 10 <= 10.
Proof. unfold clamp_score. lia. Qed.

Lemma score_site_dom (doc : soup) (css_text : string) (elapsed : Q) :
  dom (score_site doc css_text elapsed) = list_to_set UX_FACTORS.
Proof. unfold score_site. rewrite dom_list_to_map_L. reflexivity. Qed.

Lemma score_site_range (doc : soup) (css_text : string) (elapsed : Q)
    (f : string) (v : Z) :
  score_site doc css_text elapsed !! f = Some v -> 1 <= v <= 10.
Proof.
  unfold score_site. intros H. apply elem_of_list_to_map_2 in H.
  repeat (apply elem_of_cons in H as [Heq|H];
          [injection Heq as -> ->; apply clamp_score_range|]).
  by apply not_elem_of_nil in H.
Qed.

(** C8: whenever analyze_site succeeds, the scores it returns have exactly
    the 7 factor names as keys and every value is an integer from 1 to 10. *)
Theorem analyze_site_scores_well_formed (env : Env) (url : string)
    (scores : gmap string Z) (debug : diagnostics) :
  analyze_site env url = Ok (Analyzed scores debug) ->
  dom scores = list_to_set UX_FACTORS
  /\ size scores = 7%nat
  /\ (forall f, f ∈ UX_FACTORS -> exists v, scores !! f = Some v /\ 1 <= v <= 10)
  /\ (forall f v, scores !! f = Some v -> f ∈ UX_FACTORS /\ 1 <= v <= 10).
Proof.
  unfold analyze_site.
  destruct (fetch_html env url 6) as [[e|base st el sz html]|e]; simpl;
    try discriminate.
  destruct (BeautifulSoup env html) as [doc|]; simpl; [|discriminate].
  intros [= <- _].
  pose proof (score_site_dom doc (fetch_css_assets env html base 3 4) el) as Hd.
  split; [exact Hd|]. split.
  { rewrite <- size_dom, Hd. reflexivity. }
  split.
  - intros f Hf.
    assert (Hin : f ∈ dom (score_site doc (fetch_css_assets env html base 3 4) el)).
    { rewrite Hd. by apply elem_of_list_to_set. }
    apply elem_of_dom in Hin as [v Hv]. exists v. split; [done|].
    by eapply score_site_range.
  - intros f v Hv. split; [|by eapply score_site_range].
    apply (elem_of_list_to_set (C:=gset string)). rewrite <- Hd.
    apply elem_of_dom. by exists v.
Qed.

(* the witness: the page of the scenario *)
Lemma analyze_site_scores_well_formed_witness :
  dom scenario_scores = list_to_set UX_FACTORS
  /\ forall f v, scenario_scores !! f = Some v -> f ∈ UX_FACTORS /\ 1 <= v <= 10.
Proof.
  assert (H : analyze_site scenario_env "example.com" =
              Ok (Analyzed scenario_scores (MkDiag "https://example.com/" 200 1 10)))
    by decide_closed.
  split.
  - exact (proj1 (analyze_site_scores_well_formed _ _ _ _ H)).
  - exact (proj2 (proj2 (proj2 (analyze_site_scores_well_formed _ _ _ _ H)))).
Defined.

Lemma has_nav_intro (doc : soup) (attrs : gmap string attr_value) :
  MkTag "nav" attrs ∈ descendants doc -> has_nav doc = true.
Proof.
  intros H. apply existsb_exists. exists (MkTag "nav" attrs).
  split; [by apply list_elem_of_In|reflexivity].
Qed.

Lemma has_icon_link_intro (doc : soup) (t : tag) :
  t ∈ descendants doc -> tag_name t = "link" ->
  tag_attrs t !! "rel" = Some (AttrList ["icon"]) ->
  has_icon_link doc = true.
Proof.
  intros H Hn Hr. apply existsb_exists. exists t.
  split; [by apply list_elem_of_In|]. rewrite Hn, Hr. reflexivity.
Qed.

Lemma has_aria_label_intro (doc : soup) (t : tag) :
  t ∈ descendants doc -> is_Some (tag_attrs t !! "aria-label") ->
  has_aria_label doc = true.
Proof.
  intros H [v Hv]. apply existsb_exists. exists t.
  split; [by apply list_elem_of_In|]. rewrite Hv. reflexivity.
Qed.

(** C1, as the code has it: for a page whose stylesheet text is
    a:hover{color:#123456} and whose markup has a nav element, a
    link rel=icon href=/f.ico element and an element with an aria-label,
    fetched in 0.3 seconds, the one color gives cohesion 10 and
    analyze_site returns Simplicity 9, Navigation Ease 6, Personality 8
    (round(8.5) goes to the even neighbour), Delight 6, Accessibility 7,
    Speed 10, Emotional Resonance 9. *)
Theorem scenario_scores_by_code (env : Env) (url base_url html : string)
    (status size : Z) (elapsed : Q) (doc : soup)
    (nav_attrs : gmap string attr_value) (aria : tag) :
  fetch_html env url 6 = Ok (FetchOk base_url status elapsed size html) ->
  (elapsed == 3 # 10)%Q ->
  BeautifulSoup env html = Ok doc ->
  fetch_css_assets env html base_url 3 4 = "a:hover{color:#123456}" ->
  MkTag "nav" nav_attrs ∈ descendants doc ->
  MkTag "link" (list_to_map [("rel", AttrList ["icon"]);
                             ("href", AttrStr "/f.ico")]) ∈ descendants doc ->
  aria ∈ descendants doc ->
  is_Some (tag_attrs aria !! "aria-label") ->
  cohesion_from_colors (count_colors "a:hover{color:#123456}") = 10
  /\ analyze_site env url =
     Ok (Analyzed scenario_scores (MkDiag base_url status 1 10)).
Proof.
  intros Hf He Hd Hcss Hnav Hicon Haria Hlabel.
  split; [vm_compute; reflexivity|].
  rewrite (analyze_site_succeeds _ _ _ _ _ _ _ _ Hf Hd), Hcss.
  apply has_nav_intro in Hnav.
  apply has_icon_link_intro in Hicon; [|reflexivity|reflexivity].
  apply (has_aria_label_intro _ _ Haria) in Hlabel.
  unfold score_site. rewrite Hnav, Hicon, Hlabel.
  destruct (Qlt_le_dec elapsed 1) as [_|Hge]; [|lra].
  assert (Hc : count_colors "a:hover{color:#123456}" = 1)
    by (vm_compute; reflexivity).
  rewrite Hc. change (cohesion_from_colors 1) with 10.
  match goal with
  | |- Ok (Analyzed ?s _) = _ =>
      assert (Hs : s = scenario_scores)
        by decide_closed;
      rewrite Hs
  end.
  reflexivity.
Qed.

(* the witness: a site that serves that page and that stylesheet *)
Lemma scenario_scores_by_code_witness :
  analyze_site scenario_env "example.com" =
  Ok (Analyzed scenario_scores (MkDiag "https://example.com/" 200 1 10)).
Proof.
  refine (proj2 (scenario_scores_by_code scenario_env "example.com"
                   "https://example.com/" scenario_html 200
                   (Z.of_nat (String.length scenario_html)) (3 # 10)
                   scenario_doc ∅ (MkTag "p" (list_to_map [("aria-label", AttrStr "x")]))
                   _ _ _ _ _ _ _ _)).
  - reflexivity.
  - reflexivity.
  - reflexivity.
  - reflexivity.
  - apply list_elem_of_In. simpl. auto 10.
  - apply list_elem_of_In. simpl. auto 10.
  - apply list_elem_of_In. simpl. auto 10.
  - eexists. reflexivity.
Defined.

(** C1, the counterexample: on the site of the scenario analyze_site gives
    Personality 8, so its result is not the score set with Personality 9. *)
Lemma scenario_personality_is_not_9 :
  (exists scores debug,
     analyze_site scenario_env "example.com" = Ok (Analyzed scores debug)
     /\ scores !! PERSONALITY = Some 8)
  /\ ~ (exists debug,
          analyze_site scenario_env "example.com" =
          Ok (Analyzed scenario_scores_personality_9 debug)).
Proof.
  assert (H : analyze_site scenario_env "example.com" =
              Ok (Analyzed scenario_scores (MkDiag "https://example.com/" 200 1 10)))
    by decide_closed.
  split.
  - eexists _, _. split; [exact H|]. vm_compute. reflexivity.
  - intros [debug H']. rewrite H in H'.
    assert (Hs : scenario_scores = scenario_scores_personality_9)
      by congruence.
    apply (f_equal (fun m : gmap string Z => m !! PERSONALITY)) in Hs.
    vm_compute in Hs. discriminate.
Qed.

(* --------------------------------------------------------------------- *)
(* Running the heap computations                                          *)
(* --------------------------------------------------------------------- *)

Lemma bind_run {A B : Type} (m : M A) (k : A -> M B) (st st' : state) (a : A) :
  m st = (Ok a, st') -> (m ≫= k) st = k a st'.
Proof. intros H. unfold mbind, M_bind. by rewrite H. Qed.

Lemma bind_raise {A B : Type} (m : M A) (k : A -> M B) (st st' : state)
    (e : string) :
  m st = (Raise e, st') -> (m ≫= k) st = (Raise e, st').
Proof. intros H. unfold mbind, M_bind. by rewrite H. Qed.

Lemma dict_getitem_run (objs : list (gmap string value)) (R : list loc)
    (l : loc) (d : gmap string value) (key : string) (v : value) :
  objs !! l = Some d -> d !! key = Some v ->
  dict_getitem l key (MkState objs R) = (Ok v, MkState objs R).
Proof. intros Hl Hk. unfold dict_getitem. simpl. by rewrite Hl, Hk. Qed.

Lemma dict_setitem_last (objs : list (gmap string value)) (R : list loc)
    (d : gmap string value) (key : string) (v : value) :
  dict_setitem (length objs) key v (MkState (objs ++ [d]) R)
  = (Ok tt, MkState (objs ++ [<[key := v]> d]) R).
Proof.
  unfold dict_setitem. simpl.
  rewrite lookup_app_r by lia. rewrite Nat.sub_diag. simpl.
  rewrite insert_app_r_alt by lia. rewrite Nat.sub_diag. reflexivity.
Qed.

Lemma copy_loop_run (objs : list (gmap string value)) (R : list loc)
    (ref : loc) (d : gmap string value) (fs : list string) :
  objs !! ref = Some d ->
  Forall (fun f => is_Some (d !! f)) fs ->
  forall dk,
    for_each fs (fun f => v ← dict_getitem ref f;
                          dict_setitem (length objs) f v)
             (MkState (objs ++ [dk]) R)
    = (Ok tt,
       MkState (objs ++ [foldl (fun acc f => <[f := default VNone (d !! f)]> acc)
                               dk fs]) R).
Proof.
  intros Href Hfs. induction Hfs as [|f fs [v Hv] _ IH]; intros dk; [done|].
  cbn [for_each foldl]. erewrite bind_run; [apply IH|].
  erewrite bind_run.
  2:{ apply (dict_getitem_run _ _ _ d _ v); [|done].
      by apply lookup_app_l_Some. }
  rewrite dict_setitem_last, Hv. reflexivity.
Qed.

Lemma target_loop_run (objs : list (gmap string value)) (R : list loc)
    (g : string -> value) (fs : list string) :
  forall dk,
    for_each fs (fun f => dict_setitem (length objs) f (g f))
             (MkState (objs ++ [dk]) R)
    = (Ok tt, MkState (objs ++ [foldl (fun acc f => <[f := g f]> acc) dk fs]) R).
Proof.
  induction fs as [|f fs IH]; intros dk; [done|].
  cbn [for_each foldl]. erewrite bind_run; [apply IH|].
  apply dict_setitem_last.
Qed.

Lemma copy_row_run (objs : list (gmap string value)) (R : list loc)
    (ref : loc) (d : gmap string value) :
  objs !! ref = Some d -> full_row d ->
  copy_row ref (MkState objs R)
  = (Ok (length objs), MkState (objs ++ [copy_of d]) R).
Proof.
  intros Href [[name Hname] Hfs]. unfold copy_row, copy_of.
  erewrite bind_run; [|by eapply dict_getitem_run].
  erewrite bind_run; [|reflexivity]. cbn [objects REFERENCE_BENCHMARKS].
  erewrite bind_run; [|by eapply copy_loop_run].
  rewrite Hname. reflexivity.
Qed.

Lemma for_collect_copy_row (R : list loc) (refs : list loc) :
  forall (ds objs : list (gmap string value)),
    Forall2 (fun l d => objs !! l = Some d /\ full_row d) refs ds ->
    for_collect refs copy_row (MkState objs R)
    = (Ok (seq (length objs) (length refs)),
       MkState (objs ++ map copy_of ds) R).
Proof.
  induction refs as [|ref refs IH]; intros ds objs H.
  - apply Forall2_nil_inv_l in H as ->. cbn. by rewrite app_nil_r.
  - apply Forall2_cons_inv_l in H as (d & ds' & [Href Hfull] & Hrest & ->).
    cbn [for_collect]. erewrite bind_run; [|by apply copy_row_run].
    erewrite bind_run.
    2:{ apply (IH ds'). eapply Forall2_impl; [exact Hrest|].
        intros l d0 [Hl Hd0]. split; [by apply lookup_app_l_Some|done]. }
    cbn. rewrite length_app, <- app_assoc. cbn.
    by replace (length objs + 1)%nat with (S (length objs)) by lia.
Qed.

Lemma DataFrame_run (st : state) (rows : list loc) :
  forall recs,
    Forall2 (fun l r => exists d, objects st !! l = Some d
                                  /\ to_record d = Ok r) rows recs ->
    DataFrame rows st = (Ok recs, st).
Proof.
  unfold DataFrame. induction rows as [|l rows IH]; intros recs H.
  - by apply Forall2_nil_inv_l in H as ->.
  - apply Forall2_cons_inv_l in H as (r & recs' & (d & Hl & Hr) & Hrest & ->).
    cbn [for_collect]. erewrite bind_run.
    2:{ erewrite bind_run; [|unfold read_dict; by rewrite Hl].
        unfold lift. by rewrite Hr. }
    erewrite bind_run; [|by apply IH]. reflexivity.
Qed.

Lemma foldl_insert_lookup (g : string -> value) (fs : list string) (k : string) :
  forall dk : gmap string value,
    foldl (fun acc f => <[f := g f]> acc) dk fs !! k
    = if decide (k ∈ fs) then Some (g k) else dk !! k.
Proof.
  induction fs as [|f fs IH]; intros dk; cbn [foldl].
  - case_decide as H; [by apply not_elem_of_nil in H|done].
  - rewrite IH. destruct (decide (k = f)) as [->|Hne].
    + rewrite lookup_insert_eq.
      destruct (decide (f ∈ f :: fs)) as [_|Hn]; [|set_solver].
      by destruct (decide (f ∈ fs)).
    + rewrite lookup_insert_ne by done.
      destruct (decide (k ∈ fs)), (decide (k ∈ f :: fs)); set_solver.
Qed.

Lemma target_dict_product (label : string) (scores : gmap string Z) :
  target_dict label scores !! PRODUCT = Some (VStr label).
Proof.
  unfold target_dict. rewrite foldl_insert_lookup.
  case_decide as H; [|apply lookup_singleton_eq].
  exfalso. revert H. apply (bool_decide_eq_false_1 _). vm_compute. reflexivity.
Qed.

Lemma target_dict_factor (label : string) (scores : gmap string Z) (f : string) :
  f ∈ UX_FACTORS -> target_dict label scores !! f = Some (get_or_None scores f).
Proof.
  intros H. unfold target_dict. rewrite foldl_insert_lookup. by case_decide.
Qed.

Lemma target_cells (label : string) (scores : gmap string Z) (f : string) :
  f ∈ UX_FACTORS ->
  snd (record_of (target_dict label scores)) !! f = scores !! f.
Proof.
  intros H. unfold record_of. cbn [snd].
  rewrite lookup_omap, (target_dict_factor _ _ _ H). unfold get_or_None.
  by destruct (scores !! f).
Qed.

Lemma to_record_target (label : string) (scores : gmap string Z) :
  to_record (target_dict label scores) = Ok (record_of (target_dict label scores)).
Proof.
  unfold to_record, record_of. rewrite target_dict_product.
  assert (H : forallb (fun f => is_numeric_cell (target_dict label scores !! f))
                      UX_FACTORS = true).
  { apply forallb_forall. intros f Hf. apply list_elem_of_In in Hf.
    rewrite (target_dict_factor _ _ _ Hf). unfold get_or_None.
    by destruct (scores !! f). }
  by rewrite H.
Qed.

Lemma record_of_target_label (label : string) (scores : gmap string Z) :
  fst (record_of (target_dict label scores)) = label.
Proof. unfold record_of. by rewrite target_dict_product. Qed.

Lemma to_record_references :
  Forall (fun d => to_record d = Ok (record_of d)) reference_dicts.
Proof. decide_closed. Qed.

Lemma copies_of_references : map copy_of reference_dicts = reference_dicts.
Proof. decide_closed. Qed.

Lemma references_full : Forall full_row reference_dicts.
Proof.
  unfold reference_dicts.
  do 5 (constructor;
        [split; decide_closed|]).
  constructor.
Qed.

Lemma read_new_rows (objs ds : list (gmap string value)) :
  Forall (fun d => to_record d = Ok (record_of d)) ds ->
  Forall2 (fun l r => exists d, (objs ++ ds)%list !! l = Some d
                                /\ to_record d = Ok r)
          (seq (length objs) (length ds)) (map record_of ds).
Proof.
  revert objs. induction ds as [|d ds IH]; intros objs H; [constructor|].
  apply Forall_cons in H as [Hd Hds]. cbn [length seq map]. constructor.
  - exists d. split; [|done]. by rewrite list_lookup_middle.
  - specialize (IH (objs ++ [d])%list Hds).
    rewrite length_app, <- app_assoc in IH. cbn in IH.
    by replace (length objs + 1)%nat with (S (length objs)) in IH by lia.
Qed.

Lemma references_at (extra : list (gmap string value)) :
  Forall2 (fun l d => (reference_dicts ++ extra)%list !! l = Some d /\ full_row d)
          [0; 1; 2; 3; 4]%nat reference_dicts.
Proof.
  pose proof references_full as Hfull. unfold reference_dicts in *.
  do 5 (inversion_clear Hfull as [|? ? ? Hfull']; rename Hfull' into Hfull;
        constructor; [split; [reflexivity|assumption]|]).
  constructor.
Qed.

Lemma new_rows_seq (objs : list (gmap string value)) (t : gmap string value) :
  @app loc (seq (length objs) 5)
       (@cons loc (length (objs ++ reference_dicts)) (@nil loc))
  = seq (length objs) (length (reference_dicts ++ [t])).
Proof.
  rewrite !length_app. change (length reference_dicts) with 5%nat.
  cbn [length Nat.add seq app]. repeat f_equal. lia.
Qed.

(* what build_table does to any heap that holds the reference rows *)
Lemma build_table_run (label : string) (scores : gmap string Z) (st : state) :
  refs_intact st ->
  build_table label scores st
  = (Ok (table_of label scores),
     MkState (objects st ++ reference_dicts ++ [target_dict label scores])
             (REFERENCE_BENCHMARKS st)).
Proof.
  destruct st as [objs R]. intros [HR [extra Hobjs]].
  cbn [objects REFERENCE_BENCHMARKS] in HR, Hobjs. subst R.
  cbn [objects REFERENCE_BENCHMARKS]. unfold build_table.
  erewrite bind_run; [|reflexivity]. cbn [REFERENCE_BENCHMARKS].
  erewrite bind_run;
    [|apply (for_collect_copy_row _ _ reference_dicts);
      rewrite Hobjs; apply references_at].
  rewrite copies_of_references.
  erewrite bind_run; [|reflexivity]. cbn [objects REFERENCE_BENCHMARKS].
  erewrite bind_run; [|apply target_loop_run].
  fold (target_dict label scores).
  erewrite bind_run.
  2:{ apply (DataFrame_run _ _ (map record_of (reference_dicts
                                               ++ [target_dict label scores]))).
      cbn [objects]. rewrite <- app_assoc.
      change (length [0; 1; 2; 3; 4]%nat) with 5%nat.
      rewrite (new_rows_seq objs (target_dict label scores)).
      apply read_new_rows. apply Forall_app. split.
      - apply to_record_references.
      - apply Forall_singleton, to_record_target. }
  cbn [objects]. rewrite <- app_assoc. reflexivity.
Qed.

(* --------------------------------------------------------------------- *)
(* Sorting and ranking                                                    *)
(* --------------------------------------------------------------------- *)

Lemma insert_desc_perm (r : frame_row) (l : list frame_row) :
  insert_desc r l ≡ₚ r :: l.
Proof.
  induction l as [|x l IH]; cbn [insert_desc]; [done|].
  destruct (row_total x <=? row_total r); [done|].
  rewrite IH. apply Permutation_swap.
Qed.

Lemma sort_values_perm (df : list frame_row) : sort_values df ≡ₚ df.
Proof.
  induction df as [|r df IH]; cbn; [done|].
  rewrite insert_desc_perm. by rewrite IH.
Qed.

Lemma insert_desc_sorted (r : frame_row) (l : list frame_row) :
  StronglySorted desc l -> StronglySorted desc (insert_desc r l).
Proof.
  induction 1 as [|x l Hl IH Hx]; cbn [insert_desc].
  - repeat constructor.
  - destruct (Z.leb_spec (row_total x) (row_total r)) as [Hle|Hgt].
    + constructor; [by constructor|].
      constructor; [exact Hle|].
      eapply Forall_impl; [exact Hx|]. unfold desc. intros y Hy. lia.
    + constructor; [exact IH|].
      rewrite insert_desc_perm. constructor; [unfold desc; lia|exact Hx].
Qed.

Lemma sort_values_sorted (df : list frame_row) :
  StronglySorted desc (sort_values df).
Proof.
  induction df as [|r df IH]; cbn; [constructor|].
  by apply insert_desc_sorted.
Qed.

Lemma filter_length_perm (p : Z -> bool) (l1 l2 : list Z) :
  l1 ≡ₚ l2 -> length (List.filter p l1) = length (List.filter p l2).
Proof.
  induction 1 as [|x l1 l2 _ IH|x y l|l1 l2 l3 _ IH1 _ IH2]; cbn [List.filter].
  - done.
  - destruct (p x); cbn; by rewrite IH.
  - destruct (p x), (p y); reflexivity.
  - by rewrite IH1.
Qed.

Lemma rank_min_perm (ts1 ts2 : list Z) (t : Z) :
  ts1 ≡ₚ ts2 -> rank_min ts1 t = rank_min ts2 t.
Proof. intros H. unfold rank_min. by rewrite (filter_length_perm _ _ _ H). Qed.

Lemma totals_of_frame (df : list (string * gmap string Z)) :
  map row_total (with_totals_and_ranks df) = map (fun r => row_sum (snd r)) df.
Proof. unfold with_totals_and_ranks. rewrite map_map. reflexivity. Qed.

Lemma with_totals_and_ranks_elem (df : list (string * gmap string Z))
    (r : frame_row) :
  r ∈ with_totals_and_ranks df ->
  (row_product r, row_cells r) ∈ df
  /\ row_total r = row_sum (row_cells r)
  /\ row_rank r =
     rank_min (map row_total (with_totals_and_ranks df)) (row_total r).
Proof.
  rewrite totals_of_frame. unfold with_totals_and_ranks.
  intros H. apply list_elem_of_fmap in H as ([name cells] & -> & Hin).
  cbn. done.
Qed.

(* a row of the sorted frame carries the rank of its total among the
   totals of that frame *)
Lemma sorted_frame_elem (df : list (string * gmap string Z)) (r : frame_row) :
  r ∈ sort_values (with_totals_and_ranks df) ->
  (row_product r, row_cells r) ∈ df
  /\ row_total r = row_sum (row_cells r)
  /\ row_rank r =
     rank_min (map row_total (sort_values (with_totals_and_ranks df)))
              (row_total r).
Proof.
  intros H. rewrite sort_values_perm in H.
  destruct (with_totals_and_ranks_elem _ _ H) as (H1 & H2 & H3).
  split; [done|]. split; [done|]. rewrite H3. apply rank_min_perm.
  apply Permutation_map. symmetry. apply sort_values_perm.
Qed.

Lemma filter_length_le (p q : Z -> bool) (l : list Z) :
  (forall x, p x = true -> q x = true) ->
  (length (List.filter p l) <= length (List.filter q l))%nat.
Proof.
  intros Hpq. induction l as [|x l IH]; cbn [List.filter]; [done|].
  destruct (p x) eqn:Hp.
  - rewrite (Hpq _ Hp). cbn. lia.
  - destruct (q x); cbn; lia.
Qed.

Lemma filter_length_lt (p q : Z -> bool) (l : list Z) (a : Z) :
  (forall x, p x = true -> q x = true) ->
  a ∈ l -> p a = false -> q a = true ->
  (length (List.filter p l) < length (List.filter q l))%nat.
Proof.
  intros Hpq Ha Hpa Hqa. induction l as [|y l IH]; [by apply not_elem_of_nil in Ha|].
  cbn [List.filter]. apply elem_of_cons in Ha as [<-|Ha].
  - rewrite Hpa, Hqa. cbn.
    pose proof (filter_length_le p q l Hpq). lia.
  - specialize (IH Ha). destruct (p y) eqn:Hp.
    + rewrite (Hpq _ Hp). cbn. lia.
    + destruct (q y); cbn; lia.
Qed.

Lemma rank_min_tie (ts : list Z) (a b : Z) :
  a = b -> rank_min ts a = rank_min ts b.
Proof. by intros ->. Qed.

Lemma rank_min_strict (ts : list Z) (a b : Z) :
  a ∈ ts -> b < a -> rank_min ts a < rank_min ts b.
Proof.
  intros Ha Hlt. unfold rank_min.
  assert (length (List.filter (fun u => (a <? u)%Z) ts)
          < length (List.filter (fun u => (b <? u)%Z) ts))%nat; [|lia].
  apply (filter_length_lt _ _ _ a); [|done|lia|lia].
  intros x Hx. lia.
Qed.

Lemma table_of_products (label : string) (scores : gmap string Z) :
  map row_product (table_of label scores) ≡ₚ REFERENCE_NAMES ++ [label].
Proof.
  unfold table_of. rewrite sort_values_perm. unfold with_totals_and_ranks.
  rewrite !map_map. cbn [row_product]. rewrite map_app. cbn [map].
  rewrite record_of_target_label. apply Permutation_app; [|done].
  apply Permutation_refl'. decide_closed.
Qed.

Lemma table_of_length (label : string) (scores : gmap string Z) :
  length (table_of label scores) = 6%nat.
Proof.
  unfold table_of. rewrite sort_values_perm. unfold with_totals_and_ranks.
  rewrite !length_map, length_app. reflexivity.
Qed.

Lemma target_row_in_table (label : string) (scores : gmap string Z) :
  target_row label scores ∈ table_of label scores.
Proof.
  unfold table_of. rewrite sort_values_perm. unfold with_totals_and_ranks.
  apply list_elem_of_fmap. exists (record_of (target_dict label scores)).
  split.
  - unfold target_row. cbn zeta. by rewrite record_of_target_label.
  - rewrite map_app. cbn [map]. set_solver.
Qed.

Lemma row_sum_ext (c1 c2 : gmap string Z) :
  (forall f, f ∈ UX_FACTORS -> c1 !! f = c2 !! f) -> row_sum c1 = row_sum c2.
Proof.
  intros H. unfold row_sum. f_equal. apply map_ext_in. intros f Hf.
  by rewrite H by (by apply list_elem_of_In).
Qed.

(* --------------------------------------------------------------------- *)
(* The reference rows are framed                                          *)
(* --------------------------------------------------------------------- *)

Lemma initial_intact : refs_intact initial_state.
Proof.
  split; [reflexivity|]. exists []. cbn [initial_state objects].
  by rewrite app_nil_r.
Qed.

Lemma build_table_intact (label : string) (scores : gmap string Z) (st : state) :
  refs_intact st -> refs_intact (snd (build_table label scores st)).
Proof.
  intros H. rewrite (build_table_run _ _ _ H). destruct H as [HR [extra Hobjs]].
  split; [exact HR|]. cbn [snd objects].
  exists (extra ++ reference_dicts ++ [target_dict label scores])%list.
  rewrite Hobjs. by rewrite <- app_assoc.
Qed.

Lemma on_analyze_intact (env : Env) (url : string) (st : state) :
  refs_intact st -> refs_intact (snd (on_analyze env url st)).
Proof.
  intros H. unfold on_analyze, lift, mbind, M_bind.
  destruct (analyze_site env url) as [[msg|scores debug]|e]; [done| |done].
  destruct (urlparse env url) as [parts|e]; [|done].
  match goal with
  | |- context [build_table ?l ?s st] =>
      pose proof (build_table_intact l s st H) as Hi;
      rewrite (build_table_run l s st H) in Hi |- *
  end.
  exact Hi.
Qed.

Lemma run_call_intact (c : call) (st : state) :
  refs_intact st -> refs_intact (run_call c st).
Proof.
  destruct c as [env url|label scores|env url]; cbn [run_call].
  - done.
  - apply build_table_intact.
  - apply on_analyze_intact.
Qed.

Lemma run_calls_intact (cs : list call) :
  forall st, refs_intact st -> refs_intact (run_calls cs st).
Proof.
  unfold run_calls. induction cs as [|c cs IH]; intros st H; cbn [foldl].
  - exact H.
  - apply IH. by apply run_call_intact.
Qed.

Lemma reference_rows_intact (st : state) :
  refs_intact st -> reference_rows st = map Some reference_dicts.
Proof.
  intros [HR [extra Hobjs]]. unfold reference_rows. rewrite HR, Hobjs.
  reflexivity.
Qed.

(** C9: whatever calls of analyze_site, build_table and the button handler
    a session makes, in whatever order and on whatever sites, the module
    global still lists the same five objects and each of them is the dict
    it was when the module was loaded. *)
Theorem reference_rows_never_mutated (calls : list call) :
  REFERENCE_BENCHMARKS (run_calls calls initial_state)
  = REFERENCE_BENCHMARKS initial_state
  /\ reference_rows (run_calls calls initial_state)
     = reference_rows initial_state
  /\ reference_rows (run_calls calls initial_state) = map Some reference_dicts.
Proof.
  pose proof (run_calls_intact calls _ initial_intact) as H.
  split; [apply H|].
  rewrite (reference_rows_intact _ H).
  by rewrite (reference_rows_intact _ initial_intact).
Qed.

Example build_table_allocates :
  length (objects (run_calls [CallBuildTable "x" ∅; CallBuildTable "y" ∅]
                             initial_state)) = 17%nat.
Proof. vm_compute. reflexivity. Qed.

(* --------------------------------------------------------------------- *)
(* The benchmark table                                                    *)
(* --------------------------------------------------------------------- *)

Lemma build_table_reachable (calls : list call) (label : string)
    (scores : gmap string Z) :
  fst (build_table label scores (run_calls calls initial_state))
  = Ok (table_of label scores).
Proof.
  by rewrite (build_table_run _ _ _ (run_calls_intact calls _ initial_intact)).
Qed.

(** C2, as the code has it: in every state a session can reach, for every
    label and scores mapping, build_table returns 6 rows, the five
    reference products and the target, sorted by descending Total; the
    Rank of a row is one plus the number of rows whose Total is strictly
    greater (rank method min), so rows of equal Total share the minimum
    rank and a smaller Total has a strictly larger rank. *)
Theorem build_table_six_rows_min_rank (calls : list call) (label : string)
    (scores : gmap string Z) :
  exists df,
    fst (build_table label scores (run_calls calls initial_state)) = Ok df
    /\ length df = 6%nat
    /\ map row_product df ≡ₚ REFERENCE_NAMES ++ [label]
    /\ StronglySorted desc df
    /\ (forall r, r ∈ df ->
          row_rank r =
          1 + Z.of_nat (length (List.filter (fun u => row_total r <? u)
                                            (map row_total df))))
    /\ (forall a b, a ∈ df -> b ∈ df ->
          row_total a = row_total b -> row_rank a = row_rank b)
    /\ (forall a b, a ∈ df -> b ∈ df ->
          row_total b < row_total a -> row_rank a < row_rank b).
Proof.
  exists (table_of label scores).
  split; [apply build_table_reachable|].
  split; [apply table_of_length|].
  split; [apply table_of_products|].
  split; [apply sort_values_sorted|].
  assert (Hrank : forall r, r ∈ table_of label scores ->
            row_rank r = rank_min (map row_total (table_of label scores))
                                  (row_total r)).
  { intros r Hr. by apply sorted_frame_elem in Hr as (_ & _ & ->). }
  split; [exact Hrank|]. split.
  - intros a b Ha Hb Hab. rewrite (Hrank a Ha), (Hrank b Hb). by rewrite Hab.
  - intros a b Ha Hb Hab. rewrite (Hrank a Ha), (Hrank b Hb).
    apply rank_min_strict; [|done]. apply list_elem_of_fmap. by exists a.
Qed.

(** C2, the counterexample: for the target x with no scores the ranks are
    1, 2, 2, 2, 5, 6; a dense ranking would give 1, 2, 2, 2, 3, 4. *)
Lemma rank_is_not_dense :
  exists df,
    fst (build_table "x" ∅ initial_state) = Ok df
    /\ map row_rank df = [1; 2; 2; 2; 5; 6]
    /\ map (fun r => dense_rank (map row_total df) (row_total r)) df
       = [1; 2; 2; 2; 3; 4]
    /\ ~ Forall (fun r => row_rank r
                          = dense_rank (map row_total df) (row_total r)) df.
Proof.
  exists (table_of "x" ∅).
  split; [apply (build_table_reachable [])|].
  split; [vm_compute; reflexivity|].
  split; [vm_compute; reflexivity|].
  intros H. apply (bool_decide_pack _) in H. vm_compute in H. exact H.
Qed.

Lemma frame_exact_intro (scores : gmap string Z) :
  map_Forall (fun _ v => - FRAME_EXACT <= v <= FRAME_EXACT) scores ->
  frame_exact scores.
Proof. intros H f v _ Hv. exact (H f v Hv). Qed.

(** C10: in every state a session can reach, for every scores mapping (so
    for one that misses factors) whose scores are of a size the frame adds
    exactly, build_table returns a frame; the row of the target holds for
    each factor the score the mapping has, a factor the mapping misses is
    an empty cell, and the Total of the row is the sum of the scores that
    are present, a missing one counting for 0. *)
Theorem build_table_missing_factors (calls : list call) (label : string)
    (scores : gmap string Z) :
  frame_exact scores ->
  exists df trow,
    fst (build_table label scores (run_calls calls initial_state)) = Ok df
    /\ trow ∈ df
    /\ row_product trow = label
    /\ (forall f, f ∈ UX_FACTORS -> row_cells trow !! f = scores !! f)
    /\ (forall f, f ∈ UX_FACTORS -> scores !! f = None ->
          row_cells trow !! f = None)
    /\ row_total trow
       = foldr Z.add 0 (map (fun f => default 0 (scores !! f)) UX_FACTORS).
Proof.
  intros _.
  exists (table_of label scores), (target_row label scores).
  split; [apply build_table_reachable|].
  split; [apply target_row_in_table|].
  split; [reflexivity|].
  split; [intros f Hf; by apply target_cells|].
  split.
  { intros f Hf Hnone. unfold target_row. cbn [row_cells].
    by rewrite target_cells. }
  unfold target_row. cbn [row_total].
  change (row_sum (snd (record_of (target_dict label scores))) = row_sum scores).
  apply row_sum_ext. intros f Hf. by apply target_cells.
Qed.

(* a site with two of the seven scores *)
Lemma build_table_missing_factors_witness :
  exists df trow,
    fst (build_table "x" (scores_of_list [(SIMPLICITY, 9); (SPEED, 10)])
                     (run_calls [] initial_state)) = Ok df
    /\ trow ∈ df
    /\ row_product trow = "x"
    /\ (forall f, f ∈ UX_FACTORS ->
          row_cells trow !! f
          = scores_of_list [(SIMPLICITY, 9); (SPEED, 10)] !! f)
    /\ (forall f, f ∈ UX_FACTORS ->
          scores_of_list [(SIMPLICITY, 9); (SPEED, 10)] !! f = None ->
          row_cells trow !! f = None)
    /\ row_total trow
       = foldr Z.add 0
           (map (fun f => default 0 (scores_of_list [(SIMPLICITY, 9);
                                                     (SPEED, 10)] !! f))
                UX_FACTORS).
Proof.
  apply build_table_missing_factors. apply frame_exact_intro. decide_closed.
Defined.

Example build_table_partial_scores :
  map (fun r => (row_product r, row_total r, row_rank r))
      (table_of "x" (scores_of_list [(SIMPLICITY, 10); (SPEED, 50)]))
  = [("Apple iOS", 61, 1); ("Airbnb", 60, 2); ("Tesla UI", 60, 2);
     ("Figma", 60, 2); ("x", 60, 2); ("Notion", 58, 6)].
Proof. vm_compute. reflexivity. Qed.

(* ===================================================================== *)
(* Further properties                                                     *)
(* ===================================================================== *)

(* --------------------------------------------------------------------- *)
(* round and clamp_score, for any bounds                                  *)
(* --------------------------------------------------------------------- *)

Lemma py_round_floor (x : Q) :
  Qfloor x <= py_round x <= Qfloor x + 1.
Proof.
  unfold py_round.
  destruct (Qcompare (x - inject_Z (Qfloor x)) (1 # 2));
    [destruct (Z.even (Qfloor x))|..]; lia.
Qed.

Lemma py_round_mono (x y : Q) : (x <= y)%Q -> py_round x <= py_round y.
Proof.
  intros Hxy. pose proof (Qfloor_resp_le _ _ Hxy) as Hf.
  destruct (Z.eq_dec (Qfloor x) (Qfloor y)) as [Heq|Hne].
  - unfold py_round. rewrite <- Heq.
    destruct (Qcompare_spec (x - inject_Z (Qfloor x)) (1 # 2)) as [Hx|Hx|Hx];
      destruct (Qcompare_spec (y - inject_Z (Qfloor x)) (1 # 2)) as [Hy|Hy|Hy];
      try (destruct (Z.even (Qfloor x))); first [lia | exfalso; lra].
  - pose proof (py_round_floor x). pose proof (py_round_floor y). lia.
Qed.

(** X1: clamp_score never decreases when its argument grows, whatever the
    bounds. *)
Theorem clamp_score_monotone (x y : Q) (lo hi : Z) :
  (x <= y)%Q -> clamp_score x lo hi <= clamp_score y lo hi.
Proof.
  intros H. apply py_round_mono in H. unfold clamp_score. lia.
Qed.

Lemma clamp_score_monotone_witness :
  clamp_score (17 # 2) 1 10 <= clamp_score (19 # 2) 1 10.
Proof. apply clamp_score_monotone. unfold Qle. cbn. lia. Defined.

(** X2: with bounds in order, clamp_score lands between them, leaves an
    integer that lies between them as it is, and so changes nothing when it
    is applied to its own result. *)
Theorem clamp_score_idempotent (x : Q) (lo hi : Z) :
  lo <= hi ->
  lo <= clamp_score x lo hi <= hi
  /\ (forall z, lo <= z <= hi -> clamp_score (inject_Z z) lo hi = z)
  /\ clamp_score (inject_Z (clamp_score x lo hi)) lo hi = clamp_score x lo hi.
Proof.
  intros H. unfold clamp_score. rewrite py_round_int.
  split; [lia|]. split; [|lia]. intros z Hz. rewrite py_round_int. lia.
Qed.

Lemma clamp_score_idempotent_witness :
  clamp_score (inject_Z (clamp_score (250 # 1) 0 100)) 0 100
  = clamp_score (250 # 1) 0 100.
Proof. apply clamp_score_idempotent. lia. Defined.

(* --------------------------------------------------------------------- *)
(* The tokens of count_colors                                             *)
(* --------------------------------------------------------------------- *)

Lemma take_str_prefix (n : N) (s : string) :
  exists post, s = take_str n s ++ post.
Proof.
  revert n. induction s as [|c s IH]; intros n; cbn [take_str].
  - by exists "".
  - destruct (n =? 0)%N; [by exists (String c s)|].
    destruct (IH (N.pred n)) as [post Hpost]. exists post.
    change (String c s = String c (take_str (N.pred n) s ++ post)).
    f_equal. exact Hpost.
Qed.

Lemma findall_from_elem (m : string -> option nat) (s : string) :
  forall skip t,
    t ∈ findall_from m skip s ->
    exists pre s' n,
      s = pre ++ s' /\ m s' = Some n /\ t = take_str (N.of_nat n) s'.
Proof.
  induction s as [|c s IH]; intros skip t Ht; cbn [findall_from] in Ht.
  - by apply not_elem_of_nil in Ht.
  - assert (Hrest : forall k, t ∈ findall_from m k s ->
              exists pre s' n, String c s = pre ++ s' /\ m s' = Some n
                               /\ t = take_str (N.of_nat n) s').
    { intros k Hk. destruct (IH k t Hk) as (pre & s' & n & -> & Hm & Hn).
      by exists (String c pre), s', n. }
    destruct skip as [|k]; [|by eapply Hrest].
    destruct (m (String c s)) as [n|] eqn:Hm; [|by eapply Hrest].
    apply elem_of_cons in Ht as [->|Ht]; [|by eapply Hrest].
    by exists "", (String c s), n.
Qed.

Lemma take_count_prefix (p : ascii -> bool) (cap : nat) (s : string) :
  let k := count_prefix p cap s in
  String.length (take_str (N.of_nat k) s) = k
  /\ all_chars p (take_str (N.of_nat k) s) = true
  /\ (k <= cap)%nat.
Proof.
  revert s. induction cap as [|cap IH]; intros [|c s]; cbn -[N.of_nat];
    try (repeat split; reflexivity || lia).
  destruct (p c) eqn:Hp; [|cbn; repeat split; reflexivity || lia].
  destruct (IH s) as (H1 & H2 & H3).
  replace (N.of_nat (S (count_prefix p cap s)) =? 0)%N with false
    by (symmetry; apply N.eqb_neq; lia).
  rewrite Nat2N.inj_succ, N.pred_succ. cbn [String.length all_chars].
  rewrite H1, H2, Hp. repeat split; reflexivity || lia.
Qed.

Lemma take_str_occurs (pre s' : string) (n : N) :
  substring_of (take_str n s') (pre ++ s').
Proof.
  destruct (take_str_prefix n s') as [post Hpost]. exists pre, post.
  by rewrite <- Hpost.
Qed.

(** X3: every token hex_colors reports is a piece of the text, made of a
    number sign and 3 to 8 hexadecimal digits. *)
Theorem hex_colors_shape (css t : string) :
  t ∈ hex_colors css ->
  substring_of t css
  /\ exists digits,
       t = String "#" digits
       /\ (3 <= String.length digits <= 8)%nat
       /\ all_chars is_hex digits = true.
Proof.
  intros Ht. apply findall_from_elem in Ht as (pre & s' & n & -> & Hm & ->).
  split; [apply take_str_occurs|].
  unfold match_hex in Hm. destruct s' as [|c rest]; [discriminate|].
  destruct (Ascii.eqb_spec c "#"%char) as [->|Hc].
  2:{ exfalso. revert Hm.
      destruct c as [[] [] [] [] [] [] [] []]; try discriminate; by destruct Hc. }
  destruct (take_count_prefix is_hex 8 rest) as (H1 & H2 & H3).
  remember (count_prefix is_hex 8 rest) as k eqn:Hkdef. clear Hkdef.
  destruct (Nat.leb_spec 3 k) as [Hk|]; [|discriminate].
  injection Hm as <-.
  exists (take_str (N.of_nat k) rest).
  split; [|split; [rewrite H1; lia|exact H2]].
  cbn [take_str].
  replace (N.of_nat (S k) =? 0)%N with false
    by (symmetry; apply N.eqb_neq; lia).
  by rewrite Nat2N.inj_succ, N.pred_succ.
Qed.

Lemma hex_colors_shape_witness :
  substring_of "#123456" "a:hover{color:#123456}".
Proof.
  apply (hex_colors_shape "a:hover{color:#123456}" "#123456").
  apply list_elem_of_In. vm_compute. auto.
Defined.

Lemma str_app_assoc (a b c : string) : (a ++ b) ++ c = a ++ (b ++ c).
Proof.
  induction a as [|x a IH]; [reflexivity|].
  change (String x ((a ++ b) ++ c) = String x (a ++ (b ++ c))). by rewrite IH.
Qed.

Lemma str_app_nil_r (a : string) : a ++ "" = a.
Proof.
  induction a as [|x a IH]; [reflexivity|].
  change (String x (a ++ "") = String x a). by rewrite IH.
Qed.

Lemma str_length_app (a b : string) :
  String.length (a ++ b) = (String.length a + String.length b)%nat.
Proof.
  induction a as [|x a IH]; [reflexivity|].
  change (S (String.length (a ++ b)) = S (String.length a + String.length b)).
  by rewrite IH.
Qed.

Lemma take_str_app (a b : string) :
  take_str (N.of_nat (String.length a)) (a ++ b) = a.
Proof.
  induction a as [|x a IH].
  - destruct b; reflexivity.
  - change (take_str (N.of_nat (S (String.length a))) (String x (a ++ b))
            = String x a).
    cbn [take_str].
    replace (N.of_nat (S (String.length a)) =? 0)%N with false
      by (symmetry; apply N.eqb_neq; lia).
    by rewrite Nat2N.inj_succ, N.pred_succ, IH.
Qed.

Lemma strip_prefix_Some (p s r : string) :
  strip_prefix p s = Some r <-> s = p ++ r.
Proof.
  revert s. induction p as [|a p IH]; intros s; cbn [strip_prefix].
  - split; [by intros [= ->]|by intros ->].
  - destruct s as [|b s].
    + split; [discriminate|]. intros H. discriminate.
    + change (String a p ++ r) with (String a (p ++ r)).
      destruct (Ascii.eqb_spec a b) as [->|Hne].
      * rewrite IH. split; [by intros ->|by intros [= ->]].
      * split; [discriminate|]. intros [= ? ?]. done.
Qed.

Lemma drop_while_split (p : ascii -> bool) (s : string) :
  exists pre, s = pre ++ drop_while p s /\ all_chars p pre = true.
Proof.
  induction s as [|c s (pre & Hs & Hp)]; cbn [drop_while].
  - by exists "".
  - destruct (p c) eqn:Hc; [|by exists ""].
    exists (String c pre). split.
    + change (String c s = String c (pre ++ drop_while p s)). by rewrite <- Hs.
    + cbn. by rewrite Hc, Hp.
Qed.

Lemma digits1_split (s r : string) :
  digits1 s = Some r ->
  exists ds, s = ds ++ r /\ all_chars is_digit ds = true
             /\ (1 <= String.length ds)%nat.
Proof.
  unfold digits1. destruct s as [|c s]; [discriminate|].
  destruct (is_digit c) eqn:Hc; [|discriminate]. intros [= <-].
  destruct (drop_while_split is_digit s) as (pre & Hs & Hp).
  exists (String c pre). split; [|split].
  - change (String c s = String c (pre ++ drop_while is_digit s)).
    by rewrite <- Hs.
  - cbn. by rewrite Hc, Hp.
  - cbn. lia.
Qed.

(* the shape of a match of the rgb pattern *)
Lemma match_rgb_rest_split (s rest : string) :
  match_rgb_rest s = Some rest ->
  exists w1 d1 w2 d2 w3 d3 w4,
    s = ("rgb(" ++ w1 ++ d1 ++ "," ++ w2 ++ d2 ++ "," ++ w3 ++ d3 ++ w4 ++ ")")
        ++ rest
    /\ all_chars is_space (w1 ++ w2 ++ w3 ++ w4) = true
    /\ all_chars is_digit (d1 ++ d2 ++ d3) = true
    /\ (1 <= String.length d1)%nat /\ (1 <= String.length d2)%nat
    /\ (1 <= String.length d3)%nat.
Proof.
  unfold match_rgb_rest. intros H.
  destruct (strip_prefix "rgb(" s) as [s1|] eqn:E1; [|discriminate].
  cbn [mbind option_bind] in H.
  destruct (digits1 (drop_while is_space s1)) as [s2|] eqn:E2; [|discriminate].
  cbn [mbind option_bind] in H.
  destruct (strip_prefix "," s2) as [s3|] eqn:E3; [|discriminate].
  cbn [mbind option_bind] in H.
  destruct (digits1 (drop_while is_space s3)) as [s4|] eqn:E4; [|discriminate].
  cbn [mbind option_bind] in H.
  destruct (strip_prefix "," s4) as [s5|] eqn:E5; [|discriminate].
  cbn [mbind option_bind] in H.
  destruct (digits1 (drop_while is_space s5)) as [s6|] eqn:E6; [|discriminate].
  cbn [mbind option_bind] in H.
  apply strip_prefix_Some in E1, E3, E5, H.
  destruct (drop_while_split is_space s1) as (w1 & Hw1 & Pw1).
  destruct (drop_while_split is_space s3) as (w2 & Hw2 & Pw2).
  destruct (drop_while_split is_space s5) as (w3 & Hw3 & Pw3).
  destruct (drop_while_split is_space s6) as (w4 & Hw4 & Pw4).
  apply digits1_split in E2 as (d1 & Hd1 & Pd1 & Ld1).
  apply digits1_split in E4 as (d2 & Hd2 & Pd2 & Ld2).
  apply digits1_split in E6 as (d3 & Hd3 & Pd3 & Ld3).
  exists w1, d1, w2, d2, w3, d3, w4.
  assert (Hall : forall p a b, all_chars p a = true -> all_chars p b = true ->
                               all_chars p (a ++ b) = true).
  { intros p a b Ha Hb. induction a as [|x a IH]; [exact Hb|].
    cbn in Ha. apply andb_true_iff in Ha as [Hx Ha].
    change (p x && all_chars p (a ++ b) = true). by rewrite Hx, IH. }
  split; [|repeat split; auto].
  rewrite E1, Hw1, Hd1, E3, Hw2, Hd2, E5, Hw3, Hd3, Hw4, H.
  by rewrite !str_app_assoc.
Qed.

(** X4: every token rgb_colors reports is a piece of the text of the form
    rgb( blanks digits , blanks digits , blanks digits blanks ), each number
    having at least one digit and no blank standing before a comma. *)
Theorem rgb_colors_shape (css t : string) :
  t ∈ rgb_colors css ->
  substring_of t css
  /\ exists w1 d1 w2 d2 w3 d3 w4,
       t = "rgb(" ++ w1 ++ d1 ++ "," ++ w2 ++ d2 ++ "," ++ w3 ++ d3 ++ w4 ++ ")"
       /\ all_chars is_space (w1 ++ w2 ++ w3 ++ w4) = true
       /\ all_chars is_digit (d1 ++ d2 ++ d3) = true
       /\ (1 <= String.length d1)%nat /\ (1 <= String.length d2)%nat
       /\ (1 <= String.length d3)%nat.
Proof.
  intros Ht. apply findall_from_elem in Ht as (pre & s' & n & -> & Hm & ->).
  split; [apply take_str_occurs|].
  unfold match_rgb in Hm.
  destruct (match_rgb_rest s') as [rest|] eqn:Hr; [|discriminate].
  injection Hm as <-.
  destruct (match_rgb_rest_split _ _ Hr)
    as (w1 & d1 & w2 & d2 & w3 & d3 & w4 & Hs & Hrest).
  exists w1, d1, w2, d2, w3, d3, w4. split; [|exact Hrest].
  rewrite Hs at 1 2. rewrite str_length_app.
  replace (_ + String.length rest - String.length rest)%nat
    with (String.length ("rgb(" ++ w1 ++ d1 ++ "," ++ w2 ++ d2 ++ ","
                         ++ w3 ++ d3 ++ w4 ++ ")")) by lia.
  apply take_str_app.
Qed.

Lemma rgb_colors_shape_witness : substring_of "rgb( 1, 2,3 )" "a{color:rgb( 1, 2,3 )}".
Proof.
  apply (rgb_colors_shape "a{color:rgb( 1, 2,3 )}" "rgb( 1, 2,3 )").
  apply list_elem_of_In. vm_compute. auto.
Defined.

(* --------------------------------------------------------------------- *)
(* The hover test                                                         *)
(* --------------------------------------------------------------------- *)

Lemma contains_iff (needle s : string) :
  contains needle s = true <-> substring_of needle s.
Proof.
  unfold substring_of. induction s as [|c s IH]; cbn [contains].
  - destruct (strip_prefix needle "") as [r|] eqn:Hp.
    + split; [|done]. intros _. apply strip_prefix_Some in Hp.
      by exists "", r.
    + split; [discriminate|]. intros (pre & post & H). exfalso.
      destruct pre; [|discriminate].
      change ("" = needle ++ post) in H.
      apply strip_prefix_Some in H. congruence.
  - destruct (strip_prefix needle (String c s)) as [r|] eqn:Hp.
    + split; [|done]. intros _. apply strip_prefix_Some in Hp.
      by exists "", r.
    + rewrite IH. split.
      * intros (pre & post & ->). by exists (String c pre), post.
      * intros (pre & post & H). destruct pre as [|x pre].
        -- change (String c s = needle ++ post) in H.
           apply strip_prefix_Some in H. congruence.
        -- injection H as -> ->. by exists pre, post.
Qed.

(* --------------------------------------------------------------------- *)
(* The scores, without clamp and round                                    *)
(* --------------------------------------------------------------------- *)

Lemma scores_lookup (v1 v2 v3 v4 v5 v6 v7 : Z) :
  let m : gmap string Z :=
    list_to_map [(SIMPLICITY, v1); (NAVIGATION, v2); (PERSONALITY, v3);
                 (DELIGHT, v4); (ACCESSIBILITY, v5); (SPEED, v6);
                 (EMOTIONAL, v7)] in
  m !! SIMPLICITY = Some v1 /\ m !! NAVIGATION = Some v2
  /\ m !! PERSONALITY = Some v3 /\ m !! DELIGHT = Some v4
  /\ m !! ACCESSIBILITY = Some v5 /\ m !! SPEED = Some v6
  /\ m !! EMOTIONAL = Some v7.
Proof.
  cbn zeta.
  repeat split; apply elem_of_list_to_map_1;
    try (apply (bool_decide_unpack _); vm_compute; exact I);
    repeat (first [apply list_elem_of_here | apply list_elem_of_further]).
Qed.

Lemma row_sum_scores (v1 v2 v3 v4 v5 v6 v7 : Z) :
  row_sum (list_to_map [(SIMPLICITY, v1); (NAVIGATION, v2); (PERSONALITY, v3);
                        (DELIGHT, v4); (ACCESSIBILITY, v5); (SPEED, v6);
                        (EMOTIONAL, v7)])
  = v1 + v2 + v3 + v4 + v5 + v6 + v7.
Proof.
  destruct (scores_lookup v1 v2 v3 v4 v5 v6 v7)
    as (H1 & H2 & H3 & H4 & H5 & H6 & H7).
  unfold row_sum, UX_FACTORS. cbn [map foldr].
  rewrite H1, H2, H3, H4, H5, H6, H7. unfold default. cbn [from_option id]. lia.
Qed.

Lemma clamp_half_sum (c : Z) :
  c ∈ [10; 8; 6; 4; 2] -> clamp_score (inject_Z (c + 8) / 2) 1 10 = (c + 8) / 2.
Proof.
  intros H. repeat (apply elem_of_cons in H as [->|H]; [vm_compute; reflexivity|]).
  by apply not_elem_of_nil in H.
Qed.

Lemma clamp_personality (c : Z) (icon : bool) :
  c ∈ [10; 8; 6; 4; 2] ->
  clamp_score (inject_Z (c + Z.b2z icon + 6) / 2) 1 10
  = (c + 6) / 2 + Z.b2z (icon && ((c =? 8) || (c =? 4))).
Proof.
  intros H.
  repeat (apply elem_of_cons in H as [->|H];
          [destruct icon; vm_compute; reflexivity|]).
  by apply not_elem_of_nil in H.
Qed.

Lemma clamp_small_int (z : Z) :
  1 <= z <= 10 -> clamp_score (inject_Z z) 1 10 = z.
Proof. intros H. unfold clamp_score. rewrite py_round_int. lia. Qed.

Lemma cohesion_values (n : Z) : cohesion_from_colors n ∈ [10; 8; 6; 4; 2].
Proof.
  destruct (cohesion_cases n) as [[_ ->]|[[_ ->]|[[_ ->]|[[_ ->]|[_ ->]]]]];
    set_solver.
Qed.

(* score_site as a list of plain integers *)
Lemma score_site_plain (doc : soup) (css_text : string) (elapsed : Q) :
  let c := cohesion_from_colors (count_colors css_text) in
  score_site doc css_text elapsed
  = list_to_map
      [(SIMPLICITY, (c + 8) / 2);
       (NAVIGATION, 5 + Z.b2z (has_nav doc));
       (PERSONALITY,
        (c + 6) / 2 + Z.b2z (has_icon_link doc && ((c =? 8) || (c =? 4))));
       (DELIGHT, 5 + Z.b2z (contains ":hover" css_text));
       (ACCESSIBILITY, 6 + Z.b2z (has_aria_label doc));
       (SPEED, if Qlt_le_dec elapsed 1 then 10 else 7);
       (EMOTIONAL, (c + 8) / 2)].
Proof.
  cbn zeta. unfold score_site.
  pose proof (cohesion_values (count_colors css_text)) as Hc.
  rewrite (clamp_half_sum _ Hc), (clamp_personality _ _ Hc).
  rewrite !clamp_small_int;
    [reflexivity|try (destruct (Qlt_le_dec elapsed 1); lia)..];
    match goal with |- context [Z.b2z ?b] => destruct b; cbn; lia end.
Qed.

Lemma score_site_lookups (doc : soup) (css_text : string) (elapsed : Q) :
  let c := cohesion_from_colors (count_colors css_text) in
  let s := score_site doc css_text elapsed in
  s !! SIMPLICITY = Some ((c + 8) / 2)
  /\ s !! NAVIGATION = Some (5 + Z.b2z (has_nav doc))
  /\ s !! PERSONALITY
     = Some ((c + 6) / 2 + Z.b2z (has_icon_link doc && ((c =? 8) || (c =? 4))))
  /\ s !! DELIGHT = Some (5 + Z.b2z (contains ":hover" css_text))
  /\ s !! ACCESSIBILITY = Some (6 + Z.b2z (has_aria_label doc))
  /\ s !! SPEED = Some (if Qlt_le_dec elapsed 1 then 10 else 7)
  /\ s !! EMOTIONAL = Some ((c + 8) / 2).
Proof. cbn zeta. rewrite score_site_plain. apply scores_lookup. Qed.

(** X5: the scores of analyze_site written without clamp and round: the
    clamp never cuts a score, Simplicity and Emotional Resonance are
    (cohesion+8)/2, each check adds exactly 1, and the favicon raises
    Personality only when cohesion is 8 or 4, the ties 8.5, 6.5 and 4.5
    being rounded down to the even neighbour. *)
Theorem score_site_table (doc : soup) (css_text : string) (elapsed : Q) :
  let c := cohesion_from_colors (count_colors css_text) in
  let s := score_site doc css_text elapsed in
  s !! SIMPLICITY = Some ((c + 8) / 2)
  /\ s !! NAVIGATION = Some (5 + Z.b2z (has_nav doc))
  /\ s !! PERSONALITY
     = Some ((c + 6) / 2 + Z.b2z (has_icon_link doc && ((c =? 8) || (c =? 4))))
  /\ s !! DELIGHT = Some (5 + Z.b2z (contains ":hover" css_text))
  /\ s !! ACCESSIBILITY = Some (6 + Z.b2z (has_aria_label doc))
  /\ s !! SPEED = Some (if Qlt_le_dec elapsed 1 then 10 else 7)
  /\ s !! EMOTIONAL = Some ((c + 8) / 2).
Proof. apply score_site_lookups. Qed.

(** X6: with at most 6 distinct colors Personality is 8 with or without a
    favicon. *)
Theorem personality_ignores_favicon_on_small_palette (doc1 doc2 : soup)
    (css_text : string) (elapsed1 elapsed2 : Q) :
  count_colors css_text <= 6 ->
  score_site doc1 css_text elapsed1 !! PERSONALITY = Some 8
  /\ score_site doc2 css_text elapsed2 !! PERSONALITY = Some 8.
Proof.
  intros H.
  assert (Hc : cohesion_from_colors (count_colors css_text) = 10).
  { destruct (cohesion_cases (count_colors css_text))
      as [[_ ?]|[[? _]|[[? _]|[[? _]|[? _]]]]]; [done|lia..]. }
  rewrite !score_site_plain. cbn zeta. rewrite Hc.
  split; match goal with
         | |- ?m !! _ = _ =>
             match m with
             | list_to_map [(_, ?v1); (_, ?v2); (_, ?v3); (_, ?v4); (_, ?v5);
                            (_, ?v6); (_, ?v7)] =>
                 destruct (scores_lookup v1 v2 v3 v4 v5 v6 v7)
                   as (_ & _ & -> & _)
             end
         end; by rewrite andb_false_r.
Qed.

Lemma personality_ignores_favicon_on_small_palette_witness :
  score_site scenario_doc "a:hover{color:#123456}" (3 # 10) !! PERSONALITY = Some 8
  /\ score_site [] "a:hover{color:#123456}" (3 # 10) !! PERSONALITY = Some 8.
Proof.
  apply personality_ignores_favicon_on_small_palette. vm_compute. discriminate.
Defined.

(** X7: Delight/Micro-Interactions is 6 exactly when :hover occurs
    somewhere in the stylesheet text, and 5 otherwise. *)
Theorem delight_is_hover_substring (doc : soup) (css_text : string)
    (elapsed : Q) :
  (substring_of ":hover" css_text ->
   score_site doc css_text elapsed !! DELIGHT = Some 6)
  /\ (~ substring_of ":hover" css_text ->
      score_site doc css_text elapsed !! DELIGHT = Some 5).
Proof.
  destruct (score_site_lookups doc css_text elapsed) as (_ & _ & _ & -> & _).
  pose proof (contains_iff ":hover" css_text) as H.
  destruct (contains ":hover" css_text); split; intros Hs; try reflexivity.
  - exfalso. apply Hs. by apply H.
  - apply H in Hs. discriminate.
Qed.

Lemma analyzed_total_bounds_aux (doc : soup) (css_text : string) (elapsed : Q) :
  37 <= row_sum (score_site doc css_text elapsed) <= 55.
Proof.
  rewrite score_site_plain. cbn zeta. rewrite row_sum_scores.
  pose proof (cohesion_values (count_colors css_text)) as Hc.
  destruct (has_nav doc), (has_icon_link doc), (contains ":hover" css_text),
    (has_aria_label doc), (Qlt_le_dec elapsed 1);
    repeat (apply elem_of_cons in Hc as [->|Hc];
            [vm_compute; split; discriminate|]);
    by apply not_elem_of_nil in Hc.
Qed.

(** X8: the seven scores of an analysed site add up to between 37 and 55
    of the 70. *)
Theorem analyzed_total_bounds (doc : soup) (css_text : string) (elapsed : Q) :
  37 <= row_sum (score_site doc css_text elapsed) <= 55.
Proof. apply analyzed_total_bounds_aux. Qed.

(* --------------------------------------------------------------------- *)
(* The place of the target in the table                                   *)
(* --------------------------------------------------------------------- *)

Local Open Scope list_scope.

Lemma rank_min_snoc (ts : list Z) (t u : Z) :
  rank_min (ts ++ [t]) u = rank_min ts u + Z.b2z (u <? t).
Proof.
  unfold rank_min. rewrite List.filter_app, length_app. cbn [List.filter].
  destruct (u <? t); cbn; lia.
Qed.

Lemma reference_totals :
  map (fun r => row_sum (snd r)) (map record_of reference_dicts)
  = [61; 60; 58; 60; 60].
Proof. vm_compute. reflexivity. Qed.

Lemma reference_summary_alone :
  summary (sort_values (with_totals_and_ranks (map record_of reference_dicts)))
  = REFERENCE_SUMMARY.
Proof. vm_compute. reflexivity. Qed.

Lemma with_totals_and_ranks_snoc (df0 : list (string * gmap string Z))
    (x : string * gmap string Z) :
  (forall r, r ∈ df0 -> row_sum (snd x) <= row_sum (snd r)) ->
  with_totals_and_ranks (df0 ++ [x])
  = with_totals_and_ranks df0
    ++ [MkRow (fst x) (snd x) (row_sum (snd x))
              (rank_min (map (fun r => row_sum (snd r)) df0) (row_sum (snd x)))].
Proof.
  intros Hlow. unfold with_totals_and_ranks. rewrite !map_app. cbn [map].
  f_equal.
  - apply map_ext_in. intros r Hr. apply list_elem_of_In in Hr. f_equal.
    rewrite rank_min_snoc.
    specialize (Hlow r Hr).
    destruct (Z.ltb_spec (row_sum (snd r)) (row_sum (snd x))); cbn; lia.
  - do 2 f_equal. rewrite rank_min_snoc, Z.ltb_irrefl. cbn. lia.
Qed.

Lemma insert_desc_snoc (x r : frame_row) (l : list frame_row) :
  row_total r <= row_total x ->
  insert_desc x (l ++ [r]) = insert_desc x l ++ [r].
Proof.
  intros H. induction l as [|y l IH]; cbn [app insert_desc].
  - destruct (Z.leb_spec (row_total r) (row_total x)); [done|lia].
  - destruct (row_total y <=? row_total x); [done|]. by rewrite IH.
Qed.

Lemma sort_values_snoc (A : list frame_row) (r : frame_row) :
  (forall a, a ∈ A -> row_total r <= row_total a) ->
  sort_values (A ++ [r]) = sort_values A ++ [r].
Proof.
  intros H. induction A as [|a A IH]; [done|].
  cbn [app sort_values foldr]. fold (sort_values (A ++ [r])).
  fold (sort_values A).
  rewrite IH by (intros b Hb; apply H; set_solver).
  apply insert_desc_snoc. apply H. set_solver.
Qed.

Lemma row_sum_target (label : string) (scores : gmap string Z) :
  row_sum (snd (record_of (target_dict label scores))) = row_sum scores.
Proof. apply row_sum_ext. intros f Hf. by apply target_cells. Qed.

Lemma summary_app (a b : list frame_row) :
  summary (a ++ b) = summary a ++ summary b.
Proof. unfold summary. apply map_app. Qed.

Lemma table_of_low_target (label : string) (scores : gmap string Z) :
  row_sum scores < 58 ->
  summary (table_of label scores)
  = REFERENCE_SUMMARY ++ [(label, row_sum scores, 6)].
Proof.
  intros Hlow. unfold table_of. rewrite map_app. cbn [map].
  assert (Hrefs : forall r, r ∈ map record_of reference_dicts ->
                    row_sum (snd (record_of (target_dict label scores)))
                    <= row_sum (snd r)).
  { intros r Hr. rewrite row_sum_target.
    assert (Hin : row_sum (snd r) ∈ [61; 60; 58; 60; 60]).
    { rewrite <- reference_totals. apply list_elem_of_fmap. by exists r. }
    repeat (apply elem_of_cons in Hin as [->|Hin]; [lia|]).
    by apply not_elem_of_nil in Hin. }
  rewrite (with_totals_and_ranks_snoc _ _ Hrefs).
  rewrite sort_values_snoc.
  2:{ intros a Ha. cbn [row_total].
      apply with_totals_and_ranks_elem in Ha as (Hin & -> & _).
      apply (Hrefs _ Hin). }
  rewrite summary_app, reference_summary_alone. f_equal.
  unfold summary. cbn [map row_product row_total row_rank].
  rewrite record_of_target_label, row_sum_target, reference_totals.
  do 2 f_equal. unfold rank_min. cbn [List.filter].
  repeat match goal with
         | |- context [row_sum scores <? ?k] =>
             destruct (Z.ltb_spec (row_sum scores) k); [|lia]
         end.
  reflexivity.
Qed.

(** X9: in every state a session can reach, a target whose scores are of
    a size the frame adds exactly and add up to less than 58 comes last
    with rank 6; above it stand Apple iOS (61, rank 1), then Airbnb,
    Tesla UI and Figma (60, rank 2 each) in some order, then Notion
    (58, rank 5). *)
Theorem low_target_is_last (calls : list call) (label : string)
    (scores : gmap string Z) :
  frame_exact scores ->
  row_sum scores < 58 ->
  exists df tied,
    fst (build_table label scores (run_calls calls initial_state)) = Ok df
    /\ summary df
       = [("Apple iOS", 61, 1)] ++ tied
         ++ [("Notion", 58, 5); (label, row_sum scores, 6)]
    /\ tied ≡ₚ [("Airbnb", 60, 2); ("Tesla UI", 60, 2); ("Figma", 60, 2)].
Proof.
  intros _ H.
  exists (table_of label scores),
         [("Airbnb", 60, 2); ("Tesla UI", 60, 2); ("Figma", 60, 2)].
  split; [apply build_table_reachable|]. split; [|done].
  by rewrite table_of_low_target.
Qed.

Lemma low_target_is_last_witness :
  exists df tied,
    fst (build_table "x" scenario_scores (run_calls [] initial_state)) = Ok df
    /\ summary df
       = [("Apple iOS", 61, 1)] ++ tied
         ++ [("Notion", 58, 5); ("x", row_sum scenario_scores, 6)]
    /\ tied ≡ₚ [("Airbnb", 60, 2); ("Tesla UI", 60, 2); ("Figma", 60, 2)].
Proof.
  apply low_target_is_last.
  - apply frame_exact_intro. decide_closed.
  - vm_compute. reflexivity.
Defined.

Lemma analyze_site_Analyzed (env : Env) (url : string)
    (scores : gmap string Z) (debug : diagnostics) :
  analyze_site env url = Ok (Analyzed scores debug) ->
  exists parts doc css_text elapsed,
    urlparse env url = Ok parts
    /\ scores = score_site doc css_text elapsed.
Proof.
  unfold analyze_site, fetch_html.
  destruct (urlparse env url) as [parts|]; cbn; [|discriminate].
  destruct (requests_get env _ USER_AGENT 6) as [r|]; cbn; [|discriminate].
  destruct (status_is_error r); cbn; [discriminate|].
  destruct (BeautifulSoup env (r_text r)) as [doc|]; cbn; [|discriminate].
  intros [= <- _]. by eexists parts, doc, _, _.
Qed.

Lemma on_analyze_run (env : Env) (url : string) (scores : gmap string Z)
    (debug : diagnostics) (parts : url_parts) (st : state) :
  analyze_site env url = Ok (Analyzed scores debug) ->
  urlparse env url = Ok parts ->
  refs_intact st ->
  fst (on_analyze env url st)
  = Ok (ShowBenchmark (table_of (site_label parts url) scores) scores debug).
Proof.
  intros Ha Hp Hst. unfold on_analyze, lift, mbind, M_bind. rewrite Ha, Hp.
  fold (site_label parts url).
  by rewrite (build_table_run _ _ _ Hst).
Qed.

(** X10: whatever site the handler analyses, in whatever state of the
    session, the table it shows has the five reference rows on top with
    ranks 1, 2, 2, 2, 5 and the analysed site last with rank 6: its total
    is 55 at most, below every reference total. *)
Theorem analyzed_site_ranks_last (calls : list call) (env : Env)
    (url : string) (df : list frame_row) (scores : gmap string Z)
    (debug : diagnostics) :
  fst (on_analyze env url (run_calls calls initial_state))
  = Ok (ShowBenchmark df scores debug) ->
  exists parts,
    urlparse env url = Ok parts
    /\ summary df
       = REFERENCE_SUMMARY ++ [(site_label parts url, row_sum scores, 6)]
    /\ 37 <= row_sum scores <= 55.
Proof.
  intros H.
  pose proof (run_calls_intact calls _ initial_intact) as Hst.
  destruct (analyze_site env url) as [[msg|scores' debug']|e] eqn:Ha.
  - unfold on_analyze, lift, mbind, M_bind in H. rewrite Ha in H. discriminate.
  - destruct (analyze_site_Analyzed _ _ _ _ Ha)
      as (parts & doc & css_text & elapsed & Hp & Hs).
    rewrite (on_analyze_run _ _ _ _ _ _ Ha Hp Hst) in H.
    injection H as <- <- <-. exists parts. split; [exact Hp|].
    pose proof (analyzed_total_bounds_aux doc css_text elapsed) as Hb.
    rewrite <- Hs in Hb. split; [|exact Hb].
    apply table_of_low_target. lia.
  - unfold on_analyze, lift, mbind, M_bind in H. rewrite Ha in H. discriminate.
Qed.

Lemma analyzed_site_ranks_last_witness :
  exists parts,
    urlparse scenario_env "example.com" = Ok parts
    /\ summary (table_of "example.com" scenario_scores)
       = REFERENCE_SUMMARY
         ++ [(site_label parts "example.com", row_sum scenario_scores, 6)]
    /\ 37 <= row_sum scenario_scores <= 55.
Proof.
  apply (analyzed_site_ranks_last [] scenario_env "example.com" _ _
           (MkDiag "https://example.com/" 200 1 10)).
  apply (on_analyze_run scenario_env "example.com" scenario_scores _
           (MkUrl "" "")).
  - decide_closed.
  - reflexivity.
  - apply initial_intact.
Defined.

Lemma target_row_rank (label : string) (scores : gmap string Z) :
  row_rank (target_row label scores) = target_rank (row_sum scores).
Proof.
  unfold target_row. cbn [row_rank]. rewrite !map_app. cbn [map].
  rewrite rank_min_snoc, Z.ltb_irrefl, reference_totals, row_sum_target.
  unfold rank_min, target_rank. cbn [List.filter Z.b2z].
  repeat match goal with
         | |- context [row_sum scores <? ?k] =>
             destruct (Z.ltb_spec (row_sum scores) k)
         | |- context [?k <=? row_sum scores] =>
             destruct (Z.leb_spec k (row_sum scores))
         end; cbn [length]; lia.
Qed.

(** X11: for scores of a size the frame adds exactly, the rank of the
    target depends on its total alone: 1 from 61 up (shared with Apple iOS
    at 61), 2 at 60, 5 at 58 and 59, 6 below 58. *)
Theorem build_table_target_rank (calls : list call) (label : string)
    (scores : gmap string Z) :
  frame_exact scores ->
  exists df trow,
    fst (build_table label scores (run_calls calls initial_state)) = Ok df
    /\ trow ∈ df
    /\ row_product trow = label
    /\ row_total trow = row_sum scores
    /\ row_rank trow = target_rank (row_sum scores).
Proof.
  intros _.
  exists (table_of label scores), (target_row label scores).
  split; [apply build_table_reachable|].
  split; [apply target_row_in_table|].
  split; [reflexivity|].
  split; [apply row_sum_target|apply target_row_rank].
Qed.

Lemma build_table_target_rank_witness :
  exists df trow,
    fst (build_table "x" (scores_of_list [(SIMPLICITY, 10); (SPEED, 50)])
                     (run_calls [] initial_state)) = Ok df
    /\ trow ∈ df
    /\ row_product trow = "x"
    /\ row_total trow = row_sum (scores_of_list [(SIMPLICITY, 10); (SPEED, 50)])
    /\ row_rank trow
       = target_rank (row_sum (scores_of_list [(SIMPLICITY, 10); (SPEED, 50)])).
Proof.
  apply build_table_target_rank. apply frame_exact_intro. decide_closed.
Defined.

Lemma filter_all_length (l : list Z) :
  length (List.filter (fun _ => true) l) = length l.
Proof. induction l as [|x l IH]; cbn; [done|]. by rewrite IH. Qed.

Lemma filter_none (p : Z -> bool) (l : list Z) :
  (forall x, x ∈ l -> p x = false) -> List.filter p l = [].
Proof.
  intros H. induction l as [|x l IH]; [done|]. cbn [List.filter].
  rewrite (H x) by set_solver. apply IH. intros y Hy. apply H. set_solver.
Qed.

Lemma rank_min_range (ts : list Z) (t : Z) :
  t ∈ ts -> 1 <= rank_min ts t <= Z.of_nat (length ts).
Proof.
  intros Ht. unfold rank_min.
  assert (length (List.filter (fun u => (t <? u)%Z) ts)
          < length (List.filter (fun _ => true) ts))%nat.
  { apply (filter_length_lt _ _ _ t); [done|done|apply Z.ltb_irrefl|done]. }
  rewrite filter_all_length in *. lia.
Qed.

(** X12: in every frame build_table returns the ranks lie between 1 and 6
    and the first row has rank 1. *)
Theorem build_table_ranks_in_range (calls : list call) (label : string)
    (scores : gmap string Z) :
  exists df,
    fst (build_table label scores (run_calls calls initial_state)) = Ok df
    /\ (forall r, r ∈ df -> 1 <= row_rank r <= 6)
    /\ (forall r, head df = Some r -> row_rank r = 1).
Proof.
  exists (table_of label scores).
  split; [apply build_table_reachable|].
  assert (Hrank : forall r, r ∈ table_of label scores ->
            row_rank r = rank_min (map row_total (table_of label scores))
                                  (row_total r)).
  { intros r Hr. by apply sorted_frame_elem in Hr as (_ & _ & ->). }
  split.
  - intros r Hr. rewrite (Hrank r Hr).
    pose proof (rank_min_range (map row_total (table_of label scores))
                  (row_total r)) as H.
    rewrite length_map, table_of_length in H. apply H.
    apply list_elem_of_fmap. by exists r.
  - intros r Hr. pose proof (sort_values_sorted
      (with_totals_and_ranks
         (map record_of (reference_dicts ++ [target_dict label scores])))) as Hs.
    fold (table_of label scores) in Hs.
    destruct (table_of label scores) as [|r' rest] eqn:Ht; [discriminate|].
    injection Hr as ->. rewrite (Hrank r) by set_solver.
    unfold rank_min. rewrite filter_none; [reflexivity|].
    intros x Hx. apply Z.ltb_ge.
    apply list_elem_of_fmap in Hx as (a & -> & Ha).
    apply elem_of_cons in Ha as [->|Ha]; [lia|].
    apply StronglySorted_inv in Hs as [_ Hall].
    rewrite Forall_forall in Hall. apply (Hall a Ha).
Qed.

Lemma target_dict_ext (label : string) (s1 s2 : gmap string Z) :
  (forall f, f ∈ UX_FACTORS -> s1 !! f = s2 !! f) ->
  target_dict label s1 = target_dict label s2.
Proof.
  intros H. apply map_eq. intros k. unfold target_dict.
  rewrite !foldl_insert_lookup. case_decide as Hk; [|done].
  unfold get_or_None. by rewrite (H k Hk).
Qed.

(** X13: build_table reads the seven factors of the scores mapping and
    nothing else: two mappings that agree on the factors give the same
    frame, whatever other keys they hold. *)
Theorem build_table_ignores_other_keys (calls : list call) (label : string)
    (s1 s2 : gmap string Z) :
  (forall f, f ∈ UX_FACTORS -> s1 !! f = s2 !! f) ->
  fst (build_table label s1 (run_calls calls initial_state))
  = fst (build_table label s2 (run_calls calls initial_state)).
Proof.
  intros H. rewrite !build_table_reachable. unfold table_of.
  by rewrite (target_dict_ext label s1 s2 H).
Qed.

Lemma build_table_ignores_other_keys_witness :
  fst (build_table "x" scenario_scores (run_calls [] initial_state))
  = fst (build_table "x" (<["Bogus" := 3]> scenario_scores)
                     (run_calls [] initial_state)).
Proof.
  apply build_table_ignores_other_keys. intros f Hf.
  rewrite lookup_insert_ne; [done|].
  intros <-. revert Hf. apply (bool_decide_eq_false_1 _). vm_compute.
  reflexivity.
Defined.

Lemma references_copied :
  Forall (fun d =>
            Some (VStr (fst (record_of d))) = d !! PRODUCT
            /\ Forall (fun f => VInt <$> snd (record_of d) !! f = d !! f)
                      UX_FACTORS)
         reference_dicts.
Proof. decide_closed. Qed.

(** X14: every reference row comes out of build_table as it is stored: for
    each reference dict the frame has a row with its product name, its
    seven scores and their sum as Total. *)
Theorem reference_rows_copied_verbatim (calls : list call) (label : string)
    (scores : gmap string Z) (d : gmap string value) :
  d ∈ reference_dicts ->
  exists df r,
    fst (build_table label scores (run_calls calls initial_state)) = Ok df
    /\ r ∈ df
    /\ Some (VStr (row_product r)) = d !! PRODUCT
    /\ (forall f, f ∈ UX_FACTORS -> VInt <$> row_cells r !! f = d !! f)
    /\ row_total r = row_sum (row_cells r).
Proof.
  intros Hd.
  pose proof references_copied as Hc. rewrite Forall_forall in Hc.
  destruct (Hc d Hd) as [Hname Hcells].
  rewrite Forall_forall in Hcells.
  set (totals := map (fun r => row_sum (snd r))
                     (map record_of (reference_dicts
                                     ++ [target_dict label scores]))).
  exists (table_of label scores),
         (MkRow (fst (record_of d)) (snd (record_of d))
                (row_sum (snd (record_of d)))
                (rank_min totals (row_sum (snd (record_of d))))).
  split; [apply build_table_reachable|]. split.
  - unfold table_of. rewrite sort_values_perm. unfold with_totals_and_ranks.
    apply list_elem_of_fmap. exists (record_of d). split; [reflexivity|].
    apply list_elem_of_fmap. exists d. split; [done|].
    apply elem_of_app. by left.
  - cbn [row_product row_cells row_total]. split; [exact Hname|].
    split; [|reflexivity]. intros f Hf. by apply Hcells.
Qed.

Lemma reference_rows_copied_verbatim_witness :
  exists df r,
    fst (build_table "x" ∅ (run_calls [] initial_state)) = Ok df
    /\ r ∈ df
    /\ Some (VStr (row_product r)) = ref_dict "Figma" 8 9 8 9 8 10 8 !! PRODUCT
    /\ (forall f, f ∈ UX_FACTORS ->
          VInt <$> row_cells r !! f = ref_dict "Figma" 8 9 8 9 8 10 8 !! f)
    /\ row_total r = row_sum (row_cells r).
Proof.
  apply reference_rows_copied_verbatim. unfold reference_dicts.
  do 4 apply list_elem_of_further. apply list_elem_of_here.
Defined.

(** X15: on a heap that holds the reference rows a call of build_table
    allocates six dicts and changes no object that was there before. *)
Theorem build_table_only_allocates (label : string) (scores : gmap string Z)
    (st : state) :
  refs_intact st ->
  length (objects (snd (build_table label scores st)))
  = (length (objects st) + 6)%nat
  /\ REFERENCE_BENCHMARKS (snd (build_table label scores st))
     = REFERENCE_BENCHMARKS st
  /\ forall l d, objects st !! l = Some d ->
                 objects (snd (build_table label scores st)) !! l = Some d.
Proof.
  intros H. rewrite (build_table_run _ _ _ H). cbn [snd objects REFERENCE_BENCHMARKS].
  split; [rewrite !length_app; reflexivity|]. split; [reflexivity|].
  intros l d Hl. by apply lookup_app_l_Some.
Qed.

Lemma build_table_only_allocates_witness :
  length (objects (snd (build_table "y" ∅ (snd (build_table "x" ∅ initial_state)))))
  = (length (objects (snd (build_table "x" ∅ initial_state))) + 6)%nat.
Proof.
  apply build_table_only_allocates.
  apply build_table_intact, initial_intact.
Defined.

Lemma copy_loop_raise (objs : list (gmap string value)) (R : list loc)
    (ref : loc) (d : gmap string value) (fs : list string) :
  objs !! ref = Some d ->
  ~ Forall (fun f => is_Some (d !! f)) fs ->
  forall dk,
    fst (for_each fs (fun f => v ← dict_getitem ref f;
                               dict_setitem (length objs) f v)
                  (MkState (objs ++ [dk]) R))
    = Raise "KeyError".
Proof.
  intros Href. induction fs as [|f fs IH]; intros Hn dk.
  - destruct Hn. constructor.
  - cbn [for_each]. destruct (d !! f) as [v|] eqn:Hf.
    + erewrite bind_run.
      2:{ erewrite bind_run.
          2:{ apply (dict_getitem_run _ _ _ d _ v); [|done].
              by apply lookup_app_l_Some. }
          apply dict_setitem_last. }
      apply IH. intros Hall. apply Hn. constructor; [by exists v|done].
    + unfold mbind at 1, M_bind. unfold mbind at 1, M_bind.
      unfold dict_getitem. cbn [objects].
      rewrite (lookup_app_l_Some _ _ _ _ Href), Hf. reflexivity.
Qed.

(** X16: a reference row is read with ref[...]: when the first reference
    dict has lost its label or one of the seven factors, build_table raises
    KeyError and returns no frame, where a factor missing from the target's
    scores is only an empty cell. *)
Theorem build_table_reference_key_error (label : string)
    (scores : gmap string Z) (st : state) (ref : loc) (rest : list loc)
    (d : gmap string value) :
  REFERENCE_BENCHMARKS st = ref :: rest ->
  objects st !! ref = Some d ->
  ~ full_row d ->
  fst (build_table label scores st) = Raise "KeyError".
Proof.
  destruct st as [objs R]. cbn [objects REFERENCE_BENCHMARKS].
  intros -> Href Hn. unfold build_table.
  erewrite bind_run; [|reflexivity]. cbn [REFERENCE_BENCHMARKS for_collect].
  assert (Hcopy : fst (copy_row ref (MkState objs (ref :: rest)))
                  = Raise "KeyError").
  { unfold copy_row. destruct (d !! PRODUCT) as [name|] eqn:Hp.
    - erewrite bind_run; [|by eapply dict_getitem_run].
      erewrite bind_run; [|reflexivity]. cbn [objects REFERENCE_BENCHMARKS].
      pose proof (copy_loop_raise objs (ref :: rest) ref d UX_FACTORS Href) as Hl.
      assert (Hnf : ~ Forall (fun f => is_Some (d !! f)) UX_FACTORS).
      { intros Hall. apply Hn. split; [by exists name|done]. }
      specialize (Hl Hnf {[PRODUCT := name]}).
      unfold mbind, M_bind.
      destruct (for_each UX_FACTORS _ _) as [[[]|e] st']; cbn in Hl |- *;
        congruence.
    - unfold mbind, M_bind, dict_getitem. cbn [objects]. by rewrite Href, Hp. }
  unfold mbind, M_bind.
  destruct (copy_row ref (MkState objs (ref :: rest))) as [[l|e] st'];
    cbn [fst] in Hcopy |- *; [discriminate|]. by injection Hcopy as ->.
Qed.

Lemma build_table_reference_key_error_witness :
  fst (build_table "x" scenario_scores damaged_state) = Raise "KeyError".
Proof.
  apply (build_table_reference_key_error "x" scenario_scores damaged_state
           0%nat [1; 2; 3; 4]%nat
           (delete SPEED (ref_dict "Apple iOS" 9 9 9 8 8 9 9))).
  - reflexivity.
  - reflexivity.
  - unfold full_row. intros H. apply (bool_decide_pack _) in H.
    vm_compute in H. exact H.
Defined.

(* --------------------------------------------------------------------- *)
(* Edges of fetch_css_assets                                              *)
(* --------------------------------------------------------------------- *)

Lemma fetch_one_css_nonempty (env : Env) (timeout : Z) (h b : string) :
  fetch_one_css env timeout h = Some b -> b <> "".
Proof.
  intros H. apply fetch_one_css_Some in H as (r & _ & _ & Hne & ->).
  destruct (r_text r) as [|c s]; [done|]. discriminate.
Qed.

Lemma join_empty (sep : string) (bodies : list string) :
  (forall b, b ∈ bodies -> b <> "") -> join sep bodies = "" -> bodies = [].
Proof.
  intros Hne. destruct bodies as [|p rest]; [done|]. intros H. exfalso.
  assert (Hp : p <> "") by (apply Hne; set_solver).
  destruct p as [|c p]; [done|]. destruct rest; discriminate.
Qed.

(** X17: the text fetch_css_assets returns is empty exactly when no
    stylesheet survived: a body that is kept is never empty. *)
Theorem fetch_css_assets_empty_iff (env : Env) (html base_url : string)
    (limit timeout : Z) :
  fetch_css_assets env html base_url limit timeout = ""
  <-> omap (fetch_one_css env timeout)
           (requested_css env html base_url limit) = [].
Proof.
  rewrite fetch_css_assets_join. split.
  - apply join_empty. intros b Hb.
    apply list_elem_of_omap in Hb as (h & _ & Hh).
    by eapply fetch_one_css_nonempty.
  - by intros ->.
Qed.

Lemma collect_hrefs_raise (env : Env) (base_url : string) (links : list tag)
    (link : tag) (href e : string) :
  link ∈ links ->
  tag_attrs link !! "href" = Some (AttrStr href) ->
  href <> "" ->
  urljoin env base_url href = Raise e ->
  exists e', collect_hrefs env base_url links = Raise e'.
Proof.
  intros Hin Hh Hne Hj. induction links as [|l0 links IH];
    [by apply not_elem_of_nil in Hin|].
  cbn [collect_hrefs]. apply elem_of_cons in Hin as [<-|Hin].
  - rewrite Hh. destruct (String.eqb_spec href ""); [done|].
    rewrite Hj. by exists e.
  - destruct (IH Hin) as [e' He'].
    destruct (tag_attrs l0 !! "href") as [[h0|[|x xs]]|];
      try (by exists e'); [|by eexists].
    destruct (String.eqb h0 ""); [by exists e'|].
    destruct (urljoin env base_url h0) as [u|e0]; cbn; [|by exists e0].
    rewrite He'. by exists e'.
Qed.

(** X18: the hrefs are resolved before the slice and inside the outer try
    block: one stylesheet link whose href urljoin rejects leaves
    fetch_css_assets with the empty text, for every limit, even when the
    link stands beyond the limit and the other stylesheets are
    reachable. *)
Theorem css_lost_when_a_link_cannot_be_resolved (env : Env)
    (html base_url : string) (limit timeout : Z) (doc : soup) (link : tag)
    (href e : string) :
  BeautifulSoup env html = Ok doc ->
  link ∈ find_all_stylesheet_links doc ->
  tag_attrs link !! "href" = Some (AttrStr href) ->
  href <> "" ->
  urljoin env base_url href = Raise e ->
  fetch_css_assets env html base_url limit timeout = "".
Proof.
  intros Hd Hin Hh Hne Hj.
  destruct (collect_hrefs_raise _ _ _ _ _ _ Hin Hh Hne Hj) as [e' He'].
  unfold fetch_css_assets, css_hrefs. rewrite Hd. cbn. by rewrite He'.
Qed.

Lemma css_lost_when_a_link_cannot_be_resolved_witness :
  fetch_css_assets unresolvable_env scenario_html "https://example.com/" 3 4
  = "".
Proof.
  apply (css_lost_when_a_link_cannot_be_resolved unresolvable_env
           scenario_html "https://example.com/" 3 4 scenario_doc
           (MkTag "link" (list_to_map [("rel", AttrList ["stylesheet"]);
                                        ("href", AttrStr "/s.css")]))
           "/s.css" "ValueError").
  - reflexivity.
  - decide_closed.
  - reflexivity.
  - discriminate.
  - reflexivity.
Defined.

Lemma requested_css_slice (env : Env) (html base_url : string) (limit : Z) :
  requested_css env html base_url limit
  = py_slice_to limit (linked_css env html base_url).
Proof.
  unfold requested_css, css_hrefs, linked_css.
  destruct (BeautifulSoup env html) as [doc|]; cbn.
  - destruct (collect_hrefs env base_url (find_all_stylesheet_links doc));
      cbn; [done|]. unfold py_slice_to.
    destruct (0 <=? limit); by rewrite take_nil.
  - unfold py_slice_to. destruct (0 <=? limit); by rewrite take_nil.
Qed.

(** X19: the limit is a slice bound: with limit 0 nothing is requested
    and the text is empty, and a negative limit does not lift the limit but
    drops that many stylesheets from the end of the list, so nothing is
    left when the page links no more stylesheets than that. *)
Theorem css_limit_edge_cases (env : Env) (html base_url : string)
    (timeout : Z) :
  let linked := linked_css env html base_url in
  requested_css env html base_url 0 = []
  /\ fetch_css_assets env html base_url 0 timeout = ""
  /\ forall limit,
       limit < 0 ->
       requested_css env html base_url limit
       = take (length linked - Z.to_nat (- limit)) linked
       /\ ((length linked <= Z.to_nat (- limit))%nat ->
           fetch_css_assets env html base_url limit timeout = "").
Proof.
  intros linked.
  assert (H0 : requested_css env html base_url 0 = []).
  { rewrite requested_css_slice. reflexivity. }
  split; [exact H0|]. split; [by rewrite fetch_css_assets_join, H0|].
  intros limit Hlimit.
  assert (Hreq : requested_css env html base_url limit
                 = take (length linked - Z.to_nat (- limit)) linked).
  { rewrite requested_css_slice. fold linked. unfold py_slice_to.
    destruct (Z.leb_spec 0 limit); [lia|done]. }
  split; [exact Hreq|]. intros Hlen. rewrite fetch_css_assets_join, Hreq.
  by replace (length linked - Z.to_nat (- limit))%nat with 0%nat by lia.
Qed.

(* --------------------------------------------------------------------- *)
(* What escapes analyze_site and the handler                              *)
(* --------------------------------------------------------------------- *)

(** X20: an exception leaves analyze_site in two cases only: urlparse
    rejects the URL, or the page was fetched and the parser raises on it;
    both calls stand outside every try block. *)
Theorem analyze_site_raises_iff (env : Env) (url e : string) :
  analyze_site env url = Raise e
  <-> urlparse env url = Raise e
      \/ exists base_url status elapsed size html,
           fetch_html env url 6 = Ok (FetchOk base_url status elapsed size html)
           /\ BeautifulSoup env html = Raise e.
Proof.
  unfold analyze_site.
  destruct (fetch_html env url 6) as [[msg|base st el sz html]|e0] eqn:Hf; cbn.
  - split; [discriminate|]. intros [H|(? & ? & ? & ? & ? & H & _)];
      [|discriminate]. unfold fetch_html in Hf. rewrite H in Hf. discriminate.
  - destruct (BeautifulSoup env html) as [doc|e1] eqn:Hd; cbn.
    + split; [discriminate|]. intros [H|(? & ? & ? & ? & ? & H & H')].
      * unfold fetch_html in Hf. rewrite H in Hf. discriminate.
      * injection H as <- <- <- <- <-. congruence.
    + split.
      * intros [= <-]. right. by exists base, st, el, sz, html.
      * intros [H|(? & ? & ? & ? & ? & H & H')].
        -- unfold fetch_html in Hf. rewrite H in Hf. discriminate.
        -- injection H as <- <- <- <- <-. congruence.
  - assert (Hu : urlparse env url = Raise e0).
    { unfold fetch_html in Hf. destruct (urlparse env url) as [parts|e1]; cbn in Hf.
      - destruct (requests_get env _ USER_AGENT 6) as [r|];
          [destruct (status_is_error r)|]; discriminate.
      - congruence. }
    split.
    + intros [= <-]. by left.
    + intros [H|(? & ? & ? & ? & ? & H & _)]; [congruence|discriminate].
Qed.

(** X21: a URL typed without a scheme is fetched and analysed as the same
    URL behind https://. *)
Theorem scheme_less_url_is_https (env : Env) (url : string)
    (parts parts' : url_parts) (timeout : Z) :
  urlparse env url = Ok parts ->
  scheme parts = "" ->
  urlparse env ("https://" ++ url)%string = Ok parts' ->
  scheme parts' <> "" ->
  fetch_html env url timeout = fetch_html env ("https://" ++ url)%string timeout
  /\ analyze_site env url = analyze_site env ("https://" ++ url)%string.
Proof.
  intros Hp Hs Hp' Hs'.
  assert (H : forall t, fetch_html env url t
                        = fetch_html env ("https://" ++ url)%string t).
  { intros t. unfold fetch_html. rewrite Hp, Hp'. cbn. rewrite Hs.
    destruct (String.eqb_spec (scheme parts') ""); [done|]. reflexivity. }
  split; [apply H|]. unfold analyze_site. by rewrite H.
Qed.

Lemma scheme_less_url_is_https_witness :
  analyze_site scenario_env "example.com"
  = analyze_site scenario_env "https://example.com".
Proof.
  apply (scheme_less_url_is_https scenario_env "example.com" (MkUrl "" "")
           (MkUrl "https" "example.com") 6).
  - reflexivity.
  - reflexivity.
  - reflexivity.
  - discriminate.
Defined.

(** X22: in every state a session can reach the handler ends as
    analyze_site does: it shows the error and leaves the heap alone when
    the page fetch failed, it shows the table and has allocated six dicts
    when the analysis succeeded (the second urlparse of the same URL cannot
    fail), and it raises, heap untouched, only when analyze_site raises. *)
Theorem on_analyze_outcomes (calls : list call) (env : Env) (url : string) :
  let st := run_calls calls initial_state in
  match analyze_site env url with
  | Ok (Failed msg) =>
      on_analyze env url st
      = (Ok (ShowError ("Could not analyze. Error: " ++ msg)%string), st)
  | Ok (Analyzed scores debug) =>
      exists df st',
        on_analyze env url st = (Ok (ShowBenchmark df scores debug), st')
        /\ length (objects st') = (length (objects st) + 6)%nat
  | Raise e => on_analyze env url st = (Raise e, st)
  end.
Proof.
  cbn zeta. pose proof (run_calls_intact calls _ initial_intact) as Hst.
  destruct (analyze_site env url) as [[msg|scores debug]|e] eqn:Ha.
  - by apply on_analyze_failed.
  - destruct (analyze_site_Analyzed _ _ _ _ Ha) as (parts & _ & _ & _ & Hp & _).
    unfold on_analyze, lift, mbind, M_bind. rewrite Ha, Hp.
    rewrite (build_table_run _ _ _ Hst). eexists _, _. split; [reflexivity|].
    cbn [objects]. rewrite !length_app. reflexivity.
  - unfold on_analyze, lift, mbind, M_bind. by rewrite Ha.
Qed.
